(** * Local event log of the agents repository (shared/db.py) and its callers

    The development embeds the SQLite-backed helper [shared/db.py] and the
    agent tool functions that the stated properties mention.

    Modelling choices.
    - A Python [str] is a [string]: a sequence of characters, each an
      [ascii] standing for the code point of the same number (0..255).
      Text outside that range is not modelled; the decoder rejects an
      escape that names a code point of 256 or more.
    - Python integers and SQLite INTEGER values are [Z]: ids are not bounded
      by the 64 bits of a rowid.
    - The functions of shared/db.py are embedded as the calls run once
      sqlite3 has accepted their arguments.  sqlite3 raises OverflowError
      when it binds a limit outside the signed 64-bit integers
      ([fits_int64], [bound_limit]); its LIKE reads a text up to the first
      character of code 0 and refuses a pattern of more than 50000 bytes
      ([no_nul], [pattern_fits]).  A property that needs these conditions
      states them as hypotheses.
    - A table is the list of its rows in insertion order together with the
      AUTOINCREMENT counter that SQLite keeps in [sqlite_sequence].
    - [CURRENT_TIMESTAMP] is read from the environment: every insert takes
      the clock reading as an explicit argument [now].
    - The database file is explicit state, threaded through a state and
      exception monad; a statement on a missing table raises
      [OperationalError], as sqlite3 does. *)

From Stdlib Require Import List ZArith String Ascii Bool Lia Sorted.
From Stdlib Require Import DecimalString.
Import ListNotations.

Open Scope string_scope.
Open Scope Z_scope.
Open Scope list_scope.

(* ================================================================= *)
(** ** Python text primitives *)

Definition dquote : ascii := "034"%char.
Definition backslash : ascii := "092"%char.
Definition newline : string := String "010"%char EmptyString.

Definition code (c : ascii) : N := N_of_ascii c.

(** [str.isspace] on the code points below 256. *)
Definition py_isspace (c : ascii) : bool :=
  let n := code c in
  ((9 <=? n) && (n <=? 13) || (28 <=? n) && (n <=? 32)
   || (n =? 133) || (n =? 160))%N.

(** [str.lower] on one code point below 256: A-Z and the Latin-1 capitals. *)
Definition py_lower_char (c : ascii) : ascii :=
  let n := code c in
  if ((65 <=? n) && (n <=? 90))%N then ascii_of_N (n + 32)
  else if ((192 <=? n) && (n <=? 222) && negb (n =? 215))%N
       then ascii_of_N (n + 32)
       else c.

Fixpoint py_lower (s : string) : string :=
  match s with
  | EmptyString => EmptyString
  | String c r => String (py_lower_char c) (py_lower r)
  end.

Fixpoint py_lstrip (s : string) : string :=
  match s with
  | EmptyString => EmptyString
  | String c r => if py_isspace c then py_lstrip r else s
  end.

Fixpoint py_rstrip (s : string) : string :=
  match s with
  | EmptyString => EmptyString
  | String c r =>
      match py_rstrip r with
      | EmptyString => if py_isspace c then EmptyString else String c EmptyString
      | r' => String c r'
      end
  end.

Definition py_strip (s : string) : string := py_rstrip (py_lstrip s).

(** [s.split(sep)] for a one-character separator. *)
Fixpoint py_split (sep : ascii) (s : string) : list string :=
  match s with
  | EmptyString => [EmptyString]
  | String c r =>
      if (c =? sep)%char then EmptyString :: py_split sep r
      else match py_split sep r with
           | h :: t => String c h :: t
           | [] => [String c EmptyString]
           end
  end.

(** [sub in s]: case-sensitive substring test. *)
Fixpoint is_substring (sub s : string) : bool :=
  prefix sub s ||
  match s with
  | EmptyString => false
  | String _ r => is_substring sub r
  end.

(** [sep.join(parts)]. *)
Definition py_join (sep : string) (parts : list string) : string :=
  concat sep parts.

(* ================================================================= *)
(** ** json.dumps on the values the store serialises

    [json.dumps] is called with its defaults: [ensure_ascii=True] and the
    item separator of a comma followed by a space. *)

Definition hex_digit (n : N) : ascii :=
  if (n <? 10)%N then ascii_of_N (48 + n) else ascii_of_N (87 + n).

(** The escape of one character: the two-character escapes of the encoder's
    table, the character itself when printable ASCII, and the six-character
    [\u00xx] form otherwise. *)
Definition json_escape_char (c : ascii) : string :=
  let n := code c in
  if (c =? dquote)%char then String backslash (String dquote EmptyString)
  else if (c =? backslash)%char then String backslash (String backslash EmptyString)
  else if (n =? 8)%N then String backslash "b"
  else if (n =? 12)%N then String backslash "f"
  else if (n =? 10)%N then String backslash "n"
  else if (n =? 13)%N then String backslash "r"
  else if (n =? 9)%N then String backslash "t"
  else if ((32 <=? n) && (n <=? 126))%N then String c EmptyString
  else String backslash
         (String "u" (String "0" (String "0"
            (String (hex_digit (n / 16)) (String (hex_digit (n mod 16)) EmptyString))))).

Fixpoint json_escape (s : string) : string :=
  match s with
  | EmptyString => EmptyString
  | String c r => json_escape_char c ++ json_escape r
  end.

Definition json_encode_string (s : string) : string :=
  String dquote (json_escape s ++ String dquote EmptyString).

Definition json_dumps_list (items : list string) : string :=
  "[" ++ concat ", " (map json_encode_string items) ++ "]".

(** [json.dumps(tags)] where [tags] is [None] or a list of strings. *)
Definition json_dumps (v : option (list string)) : string :=
  match v with
  | None => "null"
  | Some items => json_dumps_list items
  end.

(* ================================================================= *)
(** ** The decoding step of the callers *)

(** Modelled from the spec: part of the decoding that the callers apply,
    the white space between the tokens. *)
Definition json_ws (c : ascii) : bool :=
  let n := code c in ((n =? 32) || (n =? 9) || (n =? 10) || (n =? 13))%N.

(** Modelled from the spec: part of the decoding that the callers apply,
    the skipping of white space. *)
Fixpoint skip_ws (s : string) : string :=
  match s with
  | EmptyString => EmptyString
  | String c r => if json_ws c then skip_ws r else s
  end.

(** Modelled from the spec: part of the decoding that the callers apply,
    the value of one hexadecimal digit. *)
Definition hex_value (c : ascii) : option N :=
  let n := code c in
  if ((48 <=? n) && (n <=? 57))%N then Some (n - 48)%N
  else if ((97 <=? n) && (n <=? 102))%N then Some (n - 87)%N
  else if ((65 <=? n) && (n <=? 70))%N then Some (n - 55)%N
  else None.

(** Modelled from the spec: part of the decoding that the callers apply,
    the code point written by four hexadecimal digits, when it is one of the
    modelled characters. *)
Definition hex4 (a b c d : ascii) : option ascii :=
  match hex_value a, hex_value b, hex_value c, hex_value d with
  | Some x, Some y, Some z, Some w =>
      let n := (((x * 16 + y) * 16 + z) * 16 + w)%N in
      if (n <? 256)%N then Some (ascii_of_N n) else None
  | _, _, _, _ => None
  end.

(** Modelled from the spec: part of the decoding that the callers apply,
    the two-character escapes. *)
Definition simple_escape (e : ascii) : option ascii :=
  if (e =? dquote)%char then Some dquote
  else if (e =? backslash)%char then Some backslash
  else if (e =? "/")%char then Some "/"%char
  else if (e =? "b")%char then Some "008"%char
  else if (e =? "f")%char then Some "012"%char
  else if (e =? "n")%char then Some "010"%char
  else if (e =? "r")%char then Some "013"%char
  else if (e =? "t")%char then Some "009"%char
  else None.

(** Modelled from the spec: part of the decoding that the callers apply,
    the step that puts a decoded character in front of the rest. *)
Definition cons_char (c : ascii) (r : option (string * string))
  : option (string * string) :=
  match r with
  | Some (x, rest) => Some (String c x, rest)
  | None => None
  end.

(** Modelled from the spec: the decoding that section 6 leaves to the callers
    of the store (the items and tags columns are stored as serialised
    sequences, decoded by callers); no decoder is part of the sources.  The
    text after an opening quote is read up to the closing quote; the result
    is the decoded string and the text that follows the closing quote.
    Unescaped control characters are rejected, as a strict JSON reader
    does. *)
Fixpoint parse_string_body (s : string) : option (string * string) :=
  match s with
  | EmptyString => None
  | String c rest =>
      if (c =? dquote)%char then Some (EmptyString, rest)
      else if (c =? backslash)%char then
        match rest with
        | String "u" (String h1 (String h2 (String h3 (String h4 rest')))) =>
            match hex4 h1 h2 h3 h4 with
            | Some d => cons_char d (parse_string_body rest')
            | None => None
            end
        | String e rest' =>
            match simple_escape e with
            | Some d => cons_char d (parse_string_body rest')
            | None => None
            end
        | EmptyString => None
        end
      else if (code c <? 32)%N then None
      else cons_char c (parse_string_body rest)
  end.

(** Modelled from the spec: the elements of an array of strings, after the
    opening bracket, when the array is not empty. *)
Fixpoint parse_elems (fuel : nat) (s : string) : option (list string) :=
  match fuel with
  | O => None
  | S fuel' =>
      match skip_ws s with
      | String c body =>
          if (c =? dquote)%char then
            match parse_string_body body with
            | Some (x, rest) =>
                match skip_ws rest with
                | String d rest' =>
                    if (d =? ",")%char then
                      option_map (cons x) (parse_elems fuel' rest')
                    else if (d =? "]")%char then
                      match skip_ws rest' with
                      | EmptyString => Some [x]
                      | _ => None
                      end
                    else None
                | EmptyString => None
                end
            | None => None
            end
          else None
      | EmptyString => None
      end
  end.

(** Modelled from the spec: the decoder of a stored items or tags column,
    the inverse that the callers apply to what [json.dumps] wrote.  The
    result is [None] on text that is not an array of strings or [null],
    [Some None] on [null] and [Some (Some items)] on an array. *)
Definition json_loads (s : string) : option (option (list string)) :=
  match skip_ws s with
  | String "n" (String "u" (String "l" (String "l" rest))) =>
      match skip_ws rest with
      | EmptyString => Some None
      | _ => None
      end
  | String "[" rest =>
      match skip_ws rest with
      | String "]" rest' =>
          match skip_ws rest' with
          | EmptyString => Some (Some [])
          | _ => None
          end
      | _ => option_map Some (parse_elems (S (String.length s)) rest)
      end
  | _ => None
  end.

(* ================================================================= *)
(** ** The fragment of SQL that the statements use *)

(** ASCII case folding of the LIKE operator: only A-Z are folded. *)
Definition sql_fold (c : ascii) : ascii :=
  let n := code c in
  if ((65 <=? n) && (n <=? 90))%N then ascii_of_N (n + 32) else c.

(** [s LIKE p] with SQLite's defaults (no ESCAPE clause, case folding of
    ASCII letters): a percent sign matches any run of characters, an
    underscore matches one character, any other character matches itself up
    to [sql_fold]. *)
Fixpoint like_match (p : string) : string -> bool :=
  match p with
  | EmptyString =>
      fun s => match s with EmptyString => true | String _ _ => false end
  | String c p' =>
      if (c =? "%")%char then
        fix star (s : string) : bool :=
          like_match p' s ||
          match s with
          | EmptyString => false
          | String _ s' => star s'
          end
      else if (c =? "_")%char then
        fun s =>
          match s with
          | EmptyString => false
          | String _ s' => like_match p' s'
          end
      else
        fun s =>
          match s with
          | EmptyString => false
          | String d s' => (sql_fold c =? sql_fold d)%char && like_match p' s'
          end
  end.

(** The characters that LIKE treats as wildcards do not occur. *)
Fixpoint wildcard_free (t : string) : bool :=
  match t with
  | EmptyString => true
  | String c t' =>
      negb (c =? "%")%char && negb (c =? "_")%char && wildcard_free t'
  end.

(** ASCII lower-casing of a text, the folding that LIKE compares under. *)
Fixpoint sql_lower (s : string) : string :=
  match s with
  | EmptyString => EmptyString
  | String c r => String (sql_fold c) (sql_lower r)
  end.

(** [t] is a prefix of [s] up to the case of ASCII letters. *)
Fixpoint folded_prefix (t s : string) : bool :=
  match t with
  | EmptyString => true
  | String c t' =>
      match s with
      | EmptyString => false
      | String d s' => (sql_fold c =? sql_fold d)%char && folded_prefix t' s'
      end
  end.

(** [t] occurs in [s] up to the case of ASCII letters. *)
Fixpoint folded_substring (t s : string) : bool :=
  folded_prefix t s ||
  match s with
  | EmptyString => false
  | String _ s' => folded_substring t s'
  end.

Section Query.
Context {R : Type}.
Variable key : R -> Z.

(** ORDER BY id DESC, as an insertion sort on the key. *)
Fixpoint insert_desc (x : R) (l : list R) : list R :=
  match l with
  | [] => [x]
  | y :: l' => if key y <? key x then x :: l else y :: insert_desc x l'
  end.

Definition order_by_desc (l : list R) : list R :=
  fold_right insert_desc [] l.
End Query.

(** LIMIT n: a negative bound means no bound. *)
Definition sql_limit {R : Type} (n : Z) (l : list R) : list R :=
  if n <? 0 then l else firstn (Z.to_nat n) l.

(* ================================================================= *)
(** ** The database file *)

Definition timestamp := string.

Record journal_row := mk_journal {
  j_id : Z;
  j_agent : string;
  j_entry : string;
  j_tags : string;
  j_created_at : timestamp
}.

Record playlist_row := mk_playlist {
  p_id : Z;
  p_name : string;
  p_items : string;
  p_created_at : timestamp
}.

Record response_row := mk_response {
  r_id : Z;
  r_agent : string;
  r_user_message : string;
  r_agent_response : string;
  r_session_id : option string;
  r_created_at : timestamp
}.

(** A table: its rows in insertion order and the largest id ever given. *)
Record table (R : Type) := mk_table {
  rows : list R;
  seq : Z
}.
Arguments mk_table {R} _ _.
Arguments rows {R} _.
Arguments seq {R} _.

Definition empty_table {R : Type} : table R := mk_table [] 0.

(** The file: each table is absent until it is created. *)
Record store := mk_store {
  journals : option (table journal_row);
  playlists : option (table playlist_row);
  agent_responses : option (table response_row)
}.

(** A file that does not exist yet. *)
Definition no_file : store := mk_store None None None.

(** The rows of a table that may be absent. *)
Definition rows_of {R : Type} (t : option (table R)) : list R :=
  match t with
  | Some t => rows t
  | None => []
  end.

(* ================================================================= *)
(** ** State and exception monad *)

Inductive exn : Type :=
| OperationalError (msg : string)
| ValueError (msg : string)
| OverflowError (msg : string).

Inductive outcome (A : Type) : Type :=
| Returns (a : A) (s : store)
| Raises (e : exn) (s : store).
Arguments Returns {A} _ _.
Arguments Raises {A} _ _.

Definition M (A : Type) : Type := store -> outcome A.

Definition ret {A : Type} (a : A) : M A := fun s => Returns a s.

Definition bind {A B : Type} (m : M A) (k : A -> M B) : M B :=
  fun s =>
    match m s with
    | Returns a s' => k a s'
    | Raises e s' => Raises e s'
    end.

Definition raise {A : Type} (e : exn) : M A := fun s => Raises e s.

Notation "x <- m ;; k" := (bind m (fun x => k))
  (at level 61, m at next level, right associativity).
Notation "m ;;; k" := (bind m (fun _ => k))
  (at level 61, right associativity).

(** The file left by a computation, and its value when it returned. *)
Definition final_store {A : Type} (o : outcome A) : store :=
  match o with
  | Returns _ s => s
  | Raises _ s => s
  end.

Definition value_of {A : Type} (o : outcome A) : option A :=
  match o with
  | Returns a _ => Some a
  | Raises _ _ => None
  end.

(** Python values of the mappings that the functions return. *)
Inductive pyval : Type :=
| PyStr (s : string)
| PyInt (n : Z).

Definition dict := list (string * pyval).

Fixpoint dict_get (k : string) (d : dict) : option pyval :=
  match d with
  | [] => None
  | (k', v) :: d' => if (k =? k')%string then Some v else dict_get k d'
  end.

(* ================================================================= *)
(** ** shared/db.py *)

Definition create_if_absent {R : Type} (t : option (table R))
  : option (table R) :=
  match t with
  | Some t => Some t
  | None => Some empty_table
  end.

(** [init_db]: three CREATE TABLE IF NOT EXISTS statements. *)
Definition init_db : M unit :=
  fun s =>
    Returns tt
      (mk_store (create_if_absent (journals s))
                (create_if_absent (playlists s))
                (create_if_absent (agent_responses s))).

(** The file as [init_db] leaves it. *)
Definition after_init (s : store) : store := final_store (init_db s).

(** INSERT on a table whose id column is AUTOINCREMENT: the new row gets the
    id after the largest one ever given and goes after the stored rows. *)
Definition insert_row {R : Type} (mk : Z -> R) (t : table R) : table R :=
  mk_table (rows t ++ [mk (seq t + 1)]) (seq t + 1).

Definition no_such_table {A : Type} (name : string) : M A :=
  raise (OperationalError ("no such table: " ++ name)).

Definition insert_journal (agent entry tags : string) (now : timestamp)
  : M unit :=
  fun s =>
    match journals s with
    | Some t =>
        Returns tt
          (mk_store
             (Some (insert_row (fun i => mk_journal i agent entry tags now) t))
             (playlists s) (agent_responses s))
    | None => no_such_table "journals" s
    end.

Definition insert_playlist (name items : string) (now : timestamp) : M unit :=
  fun s =>
    match playlists s with
    | Some t =>
        Returns tt
          (mk_store (journals s)
             (Some (insert_row (fun i => mk_playlist i name items now) t))
             (agent_responses s))
    | None => no_such_table "playlists" s
    end.

Definition insert_response (agent user_message agent_response : string)
    (session_id : option string) (now : timestamp) : M unit :=
  fun s =>
    match agent_responses s with
    | Some t =>
        Returns tt
          (mk_store (journals s) (playlists s)
             (Some (insert_row
                      (fun i => mk_response i agent user_message
                                  agent_response session_id now) t)))
    | None => no_such_table "agent_responses" s
    end.

Definition select_journals : M (list journal_row) :=
  fun s =>
    match journals s with
    | Some t => Returns (rows t) s
    | None => no_such_table "journals" s
    end.

Definition select_playlists : M (list playlist_row) :=
  fun s =>
    match playlists s with
    | Some t => Returns (rows t) s
    | None => no_such_table "playlists" s
    end.

Definition select_responses : M (list response_row) :=
  fun s =>
    match agent_responses s with
    | Some t => Returns (rows t) s
    | None => no_such_table "agent_responses" s
    end.

Definition ack : dict := [("status", PyStr "ok")].

Definition save_journal (agent entry : string) (tags : option (list string))
    (now : timestamp) : M dict :=
  init_db ;;;
  insert_journal agent entry (json_dumps tags) now ;;;
  ret ack.

Definition list_journals (limit : Z) : M (list journal_row) :=
  init_db ;;;
  all <- select_journals ;;
  ret (sql_limit limit (order_by_desc j_id all)).

Definition get_journals_by_agent (agent_name : string) (limit : Z)
  : M (list journal_row) :=
  init_db ;;;
  all <- select_journals ;;
  ret (sql_limit limit
         (order_by_desc j_id
            (filter (fun r => (j_agent r =? agent_name)%string) all))).

(** The WHERE clause of [search_journals], with both patterns built as
    the term between two percent signs. *)
Definition search_where (search_term : string) (r : journal_row) : bool :=
  let pattern := ("%" ++ search_term ++ "%")%string in
  like_match pattern (j_entry r) || like_match pattern (j_tags r).

Definition search_journals (search_term : string) (limit : Z)
  : M (list journal_row) :=
  init_db ;;;
  all <- select_journals ;;
  ret (sql_limit limit
         (order_by_desc j_id (filter (search_where search_term) all))).

Definition save_playlist (name : string) (items : list string)
    (now : timestamp) : M dict :=
  init_db ;;;
  insert_playlist name (json_dumps (Some items)) now ;;;
  ret ack.

Definition list_playlists (limit : Z) : M (list playlist_row) :=
  init_db ;;;
  all <- select_playlists ;;
  ret (sql_limit limit (order_by_desc p_id all)).

Definition save_agent_response (agent user_message agent_response : string)
    (session_id : option string) (now : timestamp) : M dict :=
  init_db ;;;
  insert_response agent user_message agent_response session_id now ;;;
  ret ack.

(** The five columns that [get_agent_memory] selects. *)
Definition memory_row : Type := Z * string * string * option string * timestamp.

Definition memory_columns (r : response_row) : memory_row :=
  (r_id r, r_user_message r, r_agent_response r, r_session_id r,
   r_created_at r).

Definition get_agent_memory (agent_name : string) (limit : Z)
  : M (list memory_row) :=
  init_db ;;;
  all <- select_responses ;;
  let fetched :=
    sql_limit limit
      (order_by_desc r_id
         (filter (fun r => (r_agent r =? agent_name)%string) all)) in
  ret (rev (map memory_columns fetched)).

Record conversation := mk_conversation {
  c_id : Z;
  c_user_message : string;
  c_agent_response : string;
  c_session_id : option string;
  c_created_at : timestamp
}.

Definition conversation_of (row : memory_row) : conversation :=
  let '(i, um, ar, sid, ts) := row in mk_conversation i um ar sid ts.

Definition get_recent_conversations (agent_name : string) (limit : Z)
  : M (list conversation) :=
  memory_rows <- get_agent_memory agent_name limit ;;
  ret (map conversation_of memory_rows).

Definition no_history : string := "No previous conversation history.".

Definition context_lines (conv : conversation) : list string :=
  [ "User: " ++ c_user_message conv;
    "You: " ++ c_agent_response conv;
    "---" ]%string.

Definition format_memory_for_context (agent_name : string) (limit : Z)
  : M string :=
  conversations <- get_recent_conversations agent_name limit ;;
  match conversations with
  | [] => ret no_history
  | _ :: _ =>
      ret (py_join newline
             ("Recent conversation history:"
                :: flat_map context_lines conversations))
  end.

Record memory_result := mk_memory_result {
  m_status : string;
  m_conversations : list conversation;
  m_count : Z;
  m_formatted_context : string
}.

(** [get_memory_tool agent_name] is the closure [get_memory]. *)
Definition get_memory_tool (agent_name : string) (limit : Z)
  : M memory_result :=
  let limit := Z.max 1 (Z.min 10 limit) in
  conversations <- get_recent_conversations agent_name limit ;;
  formatted <- format_memory_for_context agent_name limit ;;
  ret (mk_memory_result "success" conversations
         (Z.of_nat (List.length conversations)) formatted).

(* ================================================================= *)
(** ** Tool functions of the agents *)

(** learning_coach_agent/agent.py, [journal]. *)
Definition journal (entry tags : string) (now : timestamp) : M dict :=
  let tag_list :=
    if (tags =? EmptyString)%string then None else Some (py_split "," tags) in
  save_journal "learning_coach" entry tag_list now ;;;
  ret [("status", PyStr "saved"); ("entry", PyStr entry)].

(** multi_tool_agent/agent.py, [get_weather]. *)
Definition weather_report : string :=
  ("The weather in New York is sunny with a temperature of 25"
   ++ String "176"%char "C (77" ++ String "176"%char "F).")%string.

Definition get_weather (city : string) : dict :=
  if (py_lower city =? "new york")%string then
    [("status", PyStr "success"); ("report", PyStr weather_report)]
  else
    [("status", PyStr "error");
     ("error_message", PyStr ("No weather info for '" ++ city ++ "'."))].

(** Assignment of a sequence to a pair of targets. *)
Definition unpack2 (l : list string) : M (string * string) :=
  match l with
  | [a; b] => ret (a, b)
  | [] => raise (ValueError "not enough values to unpack (expected 2, got 0)")
  | [_] => raise (ValueError "not enough values to unpack (expected 2, got 1)")
  | _ :: _ :: _ :: _ =>
      raise (ValueError "too many values to unpack (expected 2)")
  end.

Definition indent : string := "    ".

(** The line that coding_agent/agent.py, [generate_django_model], adds for
    one field. *)
Definition field_line (field_name field_type : string) : string :=
  let t := py_lower field_type in
  (if (t =? "charfield")%string then
     indent ++ field_name ++ " = models.CharField(max_length=200)" ++ newline
   else if (t =? "textfield")%string then
     indent ++ field_name ++ " = models.TextField()" ++ newline
   else if (t =? "foreignkey")%string then
     indent ++ field_name
       ++ " = models.ForeignKey(User, on_delete=models.CASCADE)" ++ newline
   else if (t =? "datetimefield")%string then
     indent ++ field_name ++ " = models.DateTimeField(auto_now_add=True)"
       ++ newline
   else
     indent ++ field_name ++ " = models." ++ field_type ++ "()" ++ newline
  )%string.

(** The loop over [field_list], threading [model_code]. *)
Fixpoint model_fields (field_list : list string) (model_code : string)
  : M string :=
  match field_list with
  | [] => ret model_code
  | field :: rest =>
      if is_substring ":" field then
        p <- unpack2 (py_split ":" (py_strip field)) ;;
        model_fields rest (model_code ++ field_line (fst p) (snd p))
      else model_fields rest model_code
  end.

(** coding_agent/agent.py, [generate_django_model]. *)
Definition generate_django_model (model_name fields description : string)
    (now : timestamp) : M dict :=
  let field_list := py_split "," fields in
  let header :=
    ("from django.db import models" ++ newline
     ++ "from django.contrib.auth.models import User" ++ newline ++ newline
     ++ "class " ++ model_name ++ "(models.Model):" ++ newline)%string in
  body <- model_fields field_list header ;;
  let model_code :=
    (body
     ++ newline ++ indent ++ "def __str__(self):" ++ newline
     ++ indent ++ indent ++ "return str(self.id)" ++ newline
     ++ newline ++ indent ++ "class Meta:" ++ newline
     ++ indent ++ indent ++ "verbose_name = '" ++ model_name ++ "'" ++ newline
     ++ indent ++ indent ++ "verbose_name_plural = '" ++ model_name ++ "s'"
    )%string in
  save_journal "coding_agent" ("Generated Django model: " ++ model_name)
    (Some ["django"; "model"; "code"]) now ;;;
  ret [("status", PyStr "success"); ("model_code", PyStr model_code);
       ("description", PyStr description)].

(** The status vocabulary of the tool-call boundary. *)
Definition status_ok (d : dict) : bool :=
  match dict_get "status" d with
  | Some (PyStr v) =>
      ((v =? "success") || (v =? "error") || (v =? "saved") || (v =? "ok"))%string
  | _ => false
  end.

(* ================================================================= *)
(** ** Operations on the file, and the files they can reach *)

Inductive op : Type :=
| InitDb
| SaveJournal (agent entry : string) (tags : option (list string))
    (now : timestamp)
| ListJournals (limit : Z)
| GetJournalsByAgent (agent_name : string) (limit : Z)
| SearchJournals (search_term : string) (limit : Z)
| SavePlaylist (name : string) (items : list string) (now : timestamp)
| ListPlaylists (limit : Z)
| SaveAgentResponse (agent user_message agent_response : string)
    (session_id : option string) (now : timestamp)
| GetAgentMemory (agent_name : string) (limit : Z)
| GetRecentConversations (agent_name : string) (limit : Z)
| FormatMemoryForContext (agent_name : string) (limit : Z)
| GetMemory (agent_name : string) (limit : Z).

(** The file after one call. *)
Definition exec (o : op) (s : store) : store :=
  match o with
  | InitDb => final_store (init_db s)
  | SaveJournal a e t now => final_store (save_journal a e t now s)
  | ListJournals l => final_store (list_journals l s)
  | GetJournalsByAgent a l => final_store (get_journals_by_agent a l s)
  | SearchJournals t l => final_store (search_journals t l s)
  | SavePlaylist n i now => final_store (save_playlist n i now s)
  | ListPlaylists l => final_store (list_playlists l s)
  | SaveAgentResponse a u r sid now =>
      final_store (save_agent_response a u r sid now s)
  | GetAgentMemory a l => final_store (get_agent_memory a l s)
  | GetRecentConversations a l => final_store (get_recent_conversations a l s)
  | FormatMemoryForContext a l =>
      final_store (format_memory_for_context a l s)
  | GetMemory a l => final_store (get_memory_tool a l s)
  end.

(** Whether a call raised. *)
Definition raised (o : op) (s : store) : bool :=
  let failed {A} (x : outcome A) :=
    match x with Returns _ _ => false | Raises _ _ => true end in
  match o with
  | InitDb => failed (init_db s)
  | SaveJournal a e t now => failed (save_journal a e t now s)
  | ListJournals l => failed (list_journals l s)
  | GetJournalsByAgent a l => failed (get_journals_by_agent a l s)
  | SearchJournals t l => failed (search_journals t l s)
  | SavePlaylist n i now => failed (save_playlist n i now s)
  | ListPlaylists l => failed (list_playlists l s)
  | SaveAgentResponse a u r sid now =>
      failed (save_agent_response a u r sid now s)
  | GetAgentMemory a l => failed (get_agent_memory a l s)
  | GetRecentConversations a l => failed (get_recent_conversations a l s)
  | FormatMemoryForContext a l => failed (format_memory_for_context a l s)
  | GetMemory a l => failed (get_memory_tool a l s)
  end.

(** The file after a sequence of calls, the first call first. *)
Definition run (ops : list op) (s : store) : store :=
  fold_left (fun s o => exec o s) ops s.

(** Ids that increase strictly from above [lo] and stay at most [hi]. *)
Fixpoint ids_between (lo : Z) (ids : list Z) (hi : Z) : bool :=
  match ids with
  | [] => lo <=? hi
  | i :: r => (lo <? i) && ids_between i r hi
  end.

Definition wf_table {R : Type} (key : R -> Z) (t : option (table R)) : bool :=
  match t with
  | Some t => ids_between 0 (map key (rows t)) (seq t)
  | None => true
  end.

(** The invariant of a file that only this module has written. *)
Definition wf_store (s : store) : bool :=
  wf_table j_id (journals s) && wf_table p_id (playlists s)
  && wf_table r_id (agent_responses s).

(** The last [k] elements of a list. *)
Definition lastn {A : Type} (k : nat) (l : list A) : list A :=
  skipn (List.length l - k) l.

(** Strictly decreasing ids, first to last. *)
Fixpoint strictly_decreasing (ids : list Z) : bool :=
  match ids with
  | [] => true
  | i :: r =>
      match r with
      | [] => true
      | j :: _ => (j <? i) && strictly_decreasing r
      end
  end.

(** One list continues another. *)
Definition extends {A : Type} (old new : list A) : Prop :=
  exists added, new = old ++ added.

(** The conversation turn that a stored row is read back as. *)
Definition turn_of (r : response_row) : conversation :=
  conversation_of (memory_columns r).

(** The stored turns of one owner, oldest first. *)
Definition turns_of (owner : string) (s : store) : list response_row :=
  filter (fun r => (r_agent r =? owner)%string) (rows_of (agent_responses s)).

(** The arguments of one call of [save_journal], with the clock reading. *)
Record journal_call := mk_journal_call {
  jc_agent : string;
  jc_entry : string;
  jc_tags : option (list string);
  jc_now : timestamp
}.

Definition save_op (c : journal_call) : op :=
  SaveJournal (jc_agent c) (jc_entry c) (jc_tags c) (jc_now c).

(** How many of the calls are for one owner. *)
Definition count_owner (owner : string) (calls : list journal_call) : nat :=
  List.length (filter (fun c => (jc_agent c =? owner)%string) calls).

(* ================================================================= *)
(** ** Sample files *)

(** Five turns of one agent, interleaved with turns of another. *)
Definition sample_turns : store :=
  run [ SaveAgentResponse "a" "q1" "r1" None "t1";
        SaveAgentResponse "b" "x1" "y1" None "t2";
        SaveAgentResponse "a" "q2" "r2" None "t3";
        SaveAgentResponse "a" "q3" "r3" (Some "s") "t4";
        SaveAgentResponse "b" "x2" "y2" None "t5";
        SaveAgentResponse "a" "q4" "r4" None "t6";
        SaveAgentResponse "a" "q5" "r5" None "t7" ] no_file.

(** A tagged and an untagged journal entry. *)
Definition sample_journals : store :=
  run [ SaveJournal "x" "Hello World" None "t1";
        SaveJournal "y" "notes" (Some ["Work"]) "t2" ] no_file.

(* ================================================================= *)
(** ** More tool functions of the agents *)

(** Values of the mappings with nested payloads. *)
#[local] Unset Elimination Schemes.
Inductive pyobj : Type :=
| ONone
| OStr (s : string)
| OInt (n : Z)
| OList (l : list pyobj)
| OTuple (l : list pyobj)
| ODict (d : list (string * pyobj)).
#[local] Set Elimination Schemes.

Definition record := list (string * pyobj).

Fixpoint record_get (k : string) (d : record) : option pyobj :=
  match d with
  | [] => None
  | (k', v) :: d' => if (k =? k')%string then Some v else record_get k d'
  end.

(** [str(n)] and the formatting of an integer in an f-string. *)
Definition py_str_int (n : Z) : string := NilZero.string_of_int (Z.to_int n).

(** How often a character occurs in a text. *)
Fixpoint count_char (c : ascii) (s : string) : nat :=
  match s with
  | EmptyString => O
  | String d r => ((if (d =? c)%char then 1 else 0) + count_char c r)%nat
  end.

(** [range(n)] as the integers it yields. *)
Definition py_range (n : Z) : list Z :=
  map Z.of_nat (List.seq 0 (Z.to_nat n)).

(** learning_coach_agent/agent.py, the questions of [generate_quiz]. *)
Definition quiz_question (topic : string) (i : Z) : string :=
  ("Q" ++ py_str_int (i + 1) ++ ". Brief question about " ++ topic
   ++ " (short answer)")%string.

Definition quiz_questions (topic : string) (num_questions : Z) : list string :=
  let num_questions :=
    if (num_questions =? 0) || (num_questions <? 1) then 3
    else num_questions in
  let num_questions := Z.max 1 (Z.min 10 num_questions) in
  map (quiz_question topic) (py_range num_questions).

(** learning_coach_agent/agent.py, [generate_quiz]. *)
Definition generate_quiz (topic : string) (num_questions : Z) : record :=
  [("status", OStr "success");
   ("quiz", OList (map OStr (quiz_questions topic num_questions)))].

(** The tag list of [save_code_snippet] and [add_task]: the given tags split
    at the commas, or none, followed by the fixed tags. *)
Definition extend_tags (tags : string) (more : list string) : list string :=
  (if (tags =? EmptyString)%string then [] else py_split "," tags) ++ more.



(** The exception of an assignment of three or more values to two names. *)
Definition too_many : exn :=
  ValueError "too many values to unpack (expected 2)".

(** One entry of the history that [get_coding_history] returns. *)
Definition history_item (row : journal_row) : pyobj :=
  ODict [("id", OInt (j_id row)); ("entry", OStr (j_entry row));
         ("tags", OStr (j_tags row)); ("created_at", OStr (j_created_at row))].

Definition is_coding_row (row : journal_row) : bool :=
  (j_agent row =? "coding_agent")%string.

(** coding_agent/agent.py, [get_coding_history]. *)
Definition get_coding_history (limit : Z) : M record :=
  let limit := Z.max 1 (Z.min 50 limit) in
  history <- list_journals limit ;;
  let coding_history := map history_item (filter is_coding_row history) in
  ret [("status", OStr "success");
       ("history", OList coding_history);
       ("count", OInt (Z.of_nat (List.length coding_history)))].

(** project_manager_agent/agent.py, [update_task_status]. *)
Definition status_update (task_id : Z) (new_status : string) : string :=
  ("TASK_UPDATE: Task ID " ++ py_str_int task_id ++ " status changed to "
   ++ new_status)%string.

Definition update_task_status (task_id : Z) (new_status : string)
    (now : timestamp) : M record :=
  save_journal "project_manager" (status_update task_id new_status)
    (Some ["task"; "update"; new_status]) now ;;;
  ret [("status", OStr "success");
       ("message",
        OStr ("Task " ++ py_str_int task_id ++ " status updated to "
              ++ new_status));
       ("task_id", OInt task_id);
       ("new_status", OStr new_status)].

(** project_manager_agent/agent.py, [add_task]; [created] is the reading of
    [datetime.datetime.now().isoformat()]. *)
Definition task_entry (task_description due_date priority : string) : string :=
  ("TASK: " ++ task_description ++ newline ++ "DUE: " ++ due_date ++ newline
   ++ "PRIORITY: " ++ priority ++ newline ++ "STATUS: pending")%string.

Definition add_task (task_description due_date priority tags : string)
    (created : string) (now : timestamp) : M record :=
  let task_data :=
    [("description", OStr task_description);
     ("due_date", OStr due_date);
     ("priority", OStr (py_lower priority));
     ("status", OStr "pending");
     ("created_at", OStr created)] in
  let tag_list := extend_tags tags ["task"; py_lower priority] in
  save_journal "project_manager"
    (task_entry task_description due_date priority) (Some tag_list) now ;;;
  ret [("status", OStr "success");
       ("message", OStr ("Task added: " ++ task_description));
       ("task_data", ODict task_data)].

(** The rows that [list_tasks] takes for tasks, and its filter by status. *)
Definition is_task_row (row : journal_row) : bool :=
  (j_agent row =? "project_manager")%string
  && is_substring "TASK:" (j_entry row).

Definition status_filter (status : string) (row : journal_row) : bool :=
  (status =? "all")%string
  || is_substring (py_lower status) (py_lower (j_entry row)).

Definition task_info (row : journal_row) : pyobj :=
  ODict [("id", OInt (j_id row)); ("entry", OStr (j_entry row));
         ("created_at", OStr (j_created_at row)); ("tags", OStr (j_tags row))].

(** The rows behind the tasks of [list_tasks], in the order reported. *)
Definition task_rows (status : string) (history : list journal_row)
  : list journal_row :=
  filter (fun row => is_task_row row && status_filter status row) history.

(** The mapping that [list_tasks] returns for the rows of its tasks. *)
Definition tasks_record (status : string) (found : list journal_row) : record :=
  [("status", OStr "success");
   ("tasks", OList (map task_info found));
   ("count", OInt (Z.of_nat (List.length (map task_info found))));
   ("filter", OStr status)].

(** The mapping that [get_coding_history] returns for the rows behind it. *)
Definition history_record (found : list journal_row) : record :=
  [("status", OStr "success");
   ("history", OList (map history_item found));
   ("count", OInt (Z.of_nat (List.length (map history_item found))))].

(** project_manager_agent/agent.py, [list_tasks]. *)
Definition list_tasks (status : string) (limit : Z) : M record :=
  let limit := Z.max 1 (Z.min 100 limit) in
  history <- list_journals limit ;;
  let tasks := map task_info (task_rows status history) in
  ret [("status", OStr "success");
       ("tasks", OList tasks);
       ("count", OInt (Z.of_nat (List.length tasks)));
       ("filter", OStr status)].

(** A row of the journals table as the tuple that a SELECT returns. *)
Definition row_tuple (row : journal_row) : pyobj :=
  OTuple [OInt (j_id row); OStr (j_agent row); OStr (j_entry row);
          OStr (j_tags row); OStr (j_created_at row)].

Definition is_pm_row (row : journal_row) : bool :=
  (j_agent row =? "project_manager")%string.

(** How many of the rows hold a mark in their text. *)
Definition count_marked (mark : string) (found : list journal_row) : Z :=
  Z.of_nat (List.length (filter (fun e => is_substring mark (j_entry e)) found)).

(** The mapping that [get_project_summary] returns for the entries of
    project_manager that it read. *)
Definition summary_record (days_back : Z) (pm_entries : list journal_row)
  : record :=
  [("status", OStr "success");
   ("summary",
    ODict [("total_entries", OInt (Z.of_nat (List.length pm_entries)));
           ("tasks", OInt (count_marked "TASK:" pm_entries));
           ("docs", OInt (count_marked "DOC:" pm_entries));
           ("reminders", OInt (count_marked "REMINDER:" pm_entries));
           ("git_workflows", OInt (count_marked "Git workflow" pm_entries));
           ("recent_activity",
            OList (map row_tuple (firstn 10 pm_entries)))]);
   ("days_back", OInt days_back)].

(** project_manager_agent/agent.py, [get_project_summary]. *)
Definition get_project_summary (days_back : Z) : M record :=
  let limit := days_back * 10 in
  history <- list_journals limit ;;
  let pm_entries := filter is_pm_row history in
  ret (summary_record days_back pm_entries).

(** The calls that only read. *)
Definition is_read (o : op) : bool :=
  match o with
  | SaveJournal _ _ _ _ | SavePlaylist _ _ _ | SaveAgentResponse _ _ _ _ _ =>
      false
  | _ => true
  end.

(** The ids 1, 2, ... of a table with [n] rows. *)
Definition first_ids (n : nat) : list Z := map Z.of_nat (List.seq 1 n).

(** The ids of a table are 1 to the number of its rows, and the counter is
    that number. *)
Definition dense {R : Type} (key : R -> Z) (t : option (table R)) : Prop :=
  map key (rows_of t) = first_ids (List.length (rows_of t))
  /\ match t with
     | Some t => seq t = Z.of_nat (List.length (rows t))
     | None => True
     end.

Definition dense_store (s : store) : Prop :=
  dense j_id (journals s) /\ dense p_id (playlists s)
  /\ dense r_id (agent_responses s).

(* ================================================================= *)
(** ** What sqlite3 accepts *)

Definition int64_min : Z := - 2 ^ 63.
Definition int64_max : Z := 2 ^ 63 - 1.

(** An integer that sqlite3 can bind to a statement as an INTEGER. *)
Definition fits_int64 (n : Z) : bool := (int64_min <=? n) && (n <=? int64_max).

(** The exception of sqlite3 for a Python integer that does not fit. *)
Definition overflow : exn :=
  OverflowError "Python int too large to convert to SQLite INTEGER".

(** A call of shared/db.py for any Python integer as its limit: the limit
    is bound when the statement is executed, after [init_db]; when it does
    not fit, the call raises there and returns nothing. *)
Definition bound_limit {A : Type} (limit : Z) (call : M A) : M A :=
  fun s => if fits_int64 limit then call s else Raises overflow (after_init s).

(** No character of code 0 in a text. *)
Fixpoint no_nul (s : string) : bool :=
  match s with
  | EmptyString => true
  | String c r => negb (code c =? 0)%N && no_nul r
  end.

(** The length in bytes of the UTF-8 encoding of a text of code points
    below 256. *)
Fixpoint utf8_length (s : string) : Z :=
  match s with
  | EmptyString => 0
  | String c r => (if (code c <? 128)%N then 1 else 2) + utf8_length r
  end.

(** The longest pattern that LIKE accepts, in bytes. *)
Definition like_pattern_limit : Z := 50000.

(** The pattern that [search_journals] builds from a term is one that LIKE
    accepts. *)
Definition pattern_fits (term : string) : bool :=
  utf8_length term + 2 <=? like_pattern_limit.

(** A row whose text and tags LIKE reads to their end. *)
Definition like_reads_all (r : journal_row) : bool :=
  no_nul (j_entry r) && no_nul (j_tags r).

(** The arguments of a read are ones that sqlite3 accepts. *)
Definition read_in_range (o : op) : bool :=
  match o with
  | ListJournals l | ListPlaylists l => fits_int64 l
  | GetJournalsByAgent _ l | GetAgentMemory _ l
  | GetRecentConversations _ l | FormatMemoryForContext _ l => fits_int64 l
  | SearchJournals t l => fits_int64 l && pattern_fits t
  | _ => true
  end.

(** A file with entries of several agents. *)
Definition sample_project : store :=
  run [ SaveJournal "coding_agent" "Debug session: IndexError"
          (Some ["debug"; "python"; "error"]) "t1";
        SaveJournal "project_manager"
          (task_entry "write report" "Friday" "High") (Some ["task"; "high"])
          "t2";
        SaveJournal "learning_coach" "learned joins" None "t3" ] no_file.

(* ================================================================= *)
(** * Properties *)

(** ** Ordering, filtering and bounding of rows *)

Section QueryFacts.
Context {R : Type}.
Variable key : R -> Z.

Lemma ids_between_weaken lo lo' ids hi :
  lo' <= lo -> ids_between lo ids hi = true -> ids_between lo' ids hi = true.
Proof.
  destruct ids as [|i r]; simpl; intros Hle H.
  - apply Z.leb_le in H. apply Z.leb_le. lia.
  - apply andb_true_iff in H as [H1 H2]. apply Z.ltb_lt in H1.
    apply andb_true_iff. split; [apply Z.ltb_lt; lia | exact H2].
Qed.

Lemma ids_between_above lo ids hi :
  ids_between lo ids hi = true -> Forall (fun i => lo < i <= hi) ids.
Proof.
  revert lo. induction ids as [|i r IH]; simpl; intros lo H.
  - constructor.
  - apply andb_true_iff in H as [H1 H2]. apply Z.ltb_lt in H1.
    pose proof (IH _ H2) as Hr.
    constructor.
    + split; [exact H1|].
      destruct r as [|j r']; simpl in H2.
      * apply Z.leb_le in H2. exact H2.
      * inversion Hr; subst. lia.
    + eapply Forall_impl; [|exact Hr]. simpl. intros; lia.
Qed.

Lemma ids_between_bound lo ids hi :
  ids_between lo ids hi = true -> lo <= hi.
Proof.
  intros H. destruct ids as [|i r].
  - simpl in H. apply Z.leb_le in H. exact H.
  - apply ids_between_above in H. inversion H; subst. lia.
Qed.

Lemma ids_between_filter (p : R -> bool) lo l hi :
  ids_between lo (map key l) hi = true ->
  ids_between lo (map key (filter p l)) hi = true.
Proof.
  revert lo. induction l as [|x l IH]; simpl; intros lo H; [exact H|].
  apply andb_true_iff in H as [H1 H2].
  destruct (p x); simpl.
  - rewrite H1. simpl. apply IH, H2.
  - apply IH. apply ids_between_weaken with (lo := key x); [|exact H2].
    apply Z.ltb_lt in H1. lia.
Qed.

Lemma ids_between_snoc lo l hi x :
  ids_between lo (map key l) hi = true ->
  key x = hi + 1 ->
  ids_between lo (map key (l ++ [x])) (hi + 1) = true.
Proof.
  revert lo. induction l as [|y l IH]; simpl; intros lo H Hx.
  - apply Z.leb_le in H. rewrite Hx.
    apply andb_true_iff. split; [apply Z.ltb_lt|apply Z.leb_le]; lia.
  - apply andb_true_iff in H as [H1 H2]. rewrite H1. simpl.
    apply IH; assumption.
Qed.

(** A row below all the others goes last. *)
Lemma insert_desc_smallest x l :
  Forall (fun y => key x < key y) l -> insert_desc key x l = l ++ [x].
Proof.
  induction 1 as [|y l Hy _ IH]; simpl; [reflexivity|].
  destruct (Z.ltb_spec (key y) (key x)); [lia|]. now rewrite IH.
Qed.

(** On rows stored with increasing ids, ORDER BY id DESC is the reversal of
    the insertion order. *)
Lemma order_by_desc_rev lo l hi :
  ids_between lo (map key l) hi = true -> order_by_desc key l = rev l.
Proof.
  revert lo. induction l as [|x l IH]; simpl; intros lo H; [reflexivity|].
  apply andb_true_iff in H as [_ H2].
  unfold order_by_desc in *. simpl. rewrite (IH _ H2).
  apply insert_desc_smallest.
  apply ids_between_above in H2.
  apply Forall_rev. rewrite Forall_map in H2.
  eapply Forall_impl; [|exact H2]. simpl. intros; lia.
Qed.

Lemma strictly_decreasing_rev lo l hi :
  ids_between lo (map key l) hi = true ->
  strictly_decreasing (map key (rev l)) = true.
Proof.
  revert lo hi. induction l as [|x l IH] using rev_ind; intros lo hi H.
  - reflexivity.
  - rewrite rev_app_distr. simpl.
    destruct l as [|y l'] using rev_ind; [reflexivity|].
    clear IHl'. rewrite rev_app_distr. simpl.
    rewrite !map_app in H. simpl in H.
    assert (Hxy : key y < key x /\
                  ids_between lo (map key (l' ++ [y])) (key y) = true).
    { clear IH. revert lo H. induction l' as [|z l' IHl]; simpl; intros lo H.
      - apply andb_true_iff in H as [H1 H2].
        apply andb_true_iff in H2 as [H2 _].
        apply Z.ltb_lt in H2. split; [exact H2|].
        rewrite H1. simpl. apply Z.leb_refl.
      - apply andb_true_iff in H as [H1 H2].
        destruct (IHl _ H2) as [Ha Hb]. split; [exact Ha|].
        rewrite H1. exact Hb. }
    destruct Hxy as [Hlt Hrest].
    apply andb_true_iff. split; [apply Z.ltb_lt; exact Hlt|].
    specialize (IH lo (key y) Hrest).
    rewrite rev_app_distr in IH. exact IH.
Qed.

Lemma strictly_decreasing_cons i j (r : list Z) :
  strictly_decreasing (i :: j :: r)
  = (j <? i) && strictly_decreasing (j :: r).
Proof. reflexivity. Qed.

Lemma strictly_decreasing_firstn n ids :
  strictly_decreasing ids = true ->
  strictly_decreasing (firstn n ids) = true.
Proof.
  revert ids. induction n as [|n IH]; intros ids H; [reflexivity|].
  destruct ids as [|i r]; [reflexivity|].
  destruct r as [|j r']; [destruct n; reflexivity|].
  rewrite strictly_decreasing_cons in H.
  apply andb_true_iff in H as [H1 H2].
  specialize (IH _ H2). destruct n as [|n]; [reflexivity|].
  change (firstn (S (S n)) (i :: j :: r'))
    with (i :: j :: firstn n r').
  rewrite strictly_decreasing_cons, H1. exact IH.
Qed.

Lemma sql_limit_all (n : Z) (l : list R) :
  n < 0 \/ Z.of_nat (List.length l) <= n -> sql_limit n l = l.
Proof.
  unfold sql_limit. intros [H|H].
  - destruct (Z.ltb_spec n 0); [reflexivity|lia].
  - destruct (Z.ltb_spec n 0); [reflexivity|].
    apply firstn_all2. lia.
Qed.

Lemma sql_limit_decreasing n (l : list R) :
  strictly_decreasing (map key l) = true ->
  strictly_decreasing (map key (sql_limit n l)) = true.
Proof.
  unfold sql_limit. intros H. destruct (n <? 0); [exact H|].
  rewrite <- firstn_map. now apply strictly_decreasing_firstn.
Qed.

Lemma rev_firstn_rev (k : nat) (l : list R) :
  rev (firstn k (rev l)) = lastn k l.
Proof.
  unfold lastn. rewrite firstn_rev, rev_involutive. reflexivity.
Qed.
End QueryFacts.

(** ** What each function of shared/db.py computes *)

Lemma rows_of_create {R : Type} (t : option (table R)) :
  rows_of (create_if_absent t) = rows_of t.
Proof. destruct t; reflexivity. Qed.

Lemma create_if_absent_some {R : Type} (t : option (table R)) :
  exists t', create_if_absent t = Some t' /\ rows t' = rows_of t.
Proof. destruct t as [t|]; eexists; split; reflexivity. Qed.

Lemma wf_table_create {R : Type} (key : R -> Z) (t : option (table R)) :
  wf_table key (create_if_absent t) = wf_table key t.
Proof. destruct t; reflexivity. Qed.

Lemma wf_after_init s : wf_store (after_init s) = wf_store s.
Proof.
  unfold wf_store, after_init. simpl. now rewrite !wf_table_create.
Qed.

Lemma wf_store_tables s :
  wf_store s = true ->
  wf_table j_id (journals s) = true /\ wf_table p_id (playlists s) = true
  /\ wf_table r_id (agent_responses s) = true.
Proof.
  unfold wf_store. intros H.
  apply andb_true_iff in H as [H H3]. apply andb_true_iff in H as [H1 H2].
  auto.
Qed.

Lemma wf_table_ids {R : Type} (key : R -> Z) (t : option (table R)) :
  wf_table key t = true ->
  exists hi, ids_between 0 (map key (rows_of t)) hi = true.
Proof.
  destruct t as [t|]; simpl; intros H.
  - exists (seq t). exact H.
  - exists 0. reflexivity.
Qed.

Ltac run_db s :=
  unfold bind, ret, init_db, select_journals, select_playlists,
    select_responses, insert_journal, insert_playlist, insert_response,
    after_init, final_store;
  simpl;
  try (destruct (journals s)); try (destruct (playlists s));
  try (destruct (agent_responses s)); reflexivity.

Lemma list_journals_eq limit s :
  list_journals limit s
  = Returns (sql_limit limit (order_by_desc j_id (rows_of (journals s))))
      (after_init s).
Proof. unfold list_journals. run_db s. Qed.

Lemma get_journals_by_agent_eq agent_name limit s :
  get_journals_by_agent agent_name limit s
  = Returns
      (sql_limit limit
         (order_by_desc j_id
            (filter (fun r => (j_agent r =? agent_name)%string)
               (rows_of (journals s)))))
      (after_init s).
Proof. unfold get_journals_by_agent. run_db s. Qed.

Lemma search_journals_eq term limit s :
  search_journals term limit s
  = Returns
      (sql_limit limit
         (order_by_desc j_id
            (filter (search_where term) (rows_of (journals s)))))
      (after_init s).
Proof. unfold search_journals. run_db s. Qed.

Lemma list_playlists_eq limit s :
  list_playlists limit s
  = Returns (sql_limit limit (order_by_desc p_id (rows_of (playlists s))))
      (after_init s).
Proof. unfold list_playlists. run_db s. Qed.

Lemma get_agent_memory_eq agent_name limit s :
  get_agent_memory agent_name limit s
  = Returns
      (rev (map memory_columns
              (sql_limit limit
                 (order_by_desc r_id
                    (filter (fun r => (r_agent r =? agent_name)%string)
                       (rows_of (agent_responses s)))))))
      (after_init s).
Proof. unfold get_agent_memory. run_db s. Qed.

Lemma get_recent_conversations_eq agent_name limit s :
  get_recent_conversations agent_name limit s
  = Returns
      (map conversation_of
         (rev (map memory_columns
                 (sql_limit limit
                    (order_by_desc r_id
                       (filter (fun r => (r_agent r =? agent_name)%string)
                          (rows_of (agent_responses s))))))))
      (after_init s).
Proof.
  unfold get_recent_conversations, bind.
  rewrite get_agent_memory_eq. reflexivity.
Qed.

Lemma save_journal_eq agent entry tags now s :
  save_journal agent entry tags now s
  = Returns ack
      (mk_store
         (Some (insert_row
                  (fun i => mk_journal i agent entry (json_dumps tags) now)
                  (match journals s with Some t => t | None => empty_table end)))
         (create_if_absent (playlists s))
         (create_if_absent (agent_responses s))).
Proof. unfold save_journal. run_db s. Qed.

Lemma save_playlist_eq name items now s :
  save_playlist name items now s
  = Returns ack
      (mk_store
         (create_if_absent (journals s))
         (Some (insert_row
                  (fun i => mk_playlist i name (json_dumps (Some items)) now)
                  (match playlists s with Some t => t | None => empty_table end)))
         (create_if_absent (agent_responses s))).
Proof. unfold save_playlist. run_db s. Qed.

Lemma save_agent_response_eq agent um ar sid now s :
  save_agent_response agent um ar sid now s
  = Returns ack
      (mk_store
         (create_if_absent (journals s))
         (create_if_absent (playlists s))
         (Some (insert_row (fun i => mk_response i agent um ar sid now)
                  (match agent_responses s with
                   | Some t => t
                   | None => empty_table
                   end)))).
Proof. unfold save_agent_response. run_db s. Qed.

Lemma after_init_idem s : after_init (after_init s) = after_init s.
Proof.
  unfold after_init. simpl.
  destruct (journals s), (playlists s), (agent_responses s); reflexivity.
Qed.

(** ** Recent conversation turns *)

Lemma turns_of_ids owner s :
  wf_store s = true ->
  exists hi, ids_between 0 (map r_id (turns_of owner s)) hi = true.
Proof.
  intros Hwf. apply wf_store_tables in Hwf as (_ & _ & Hr).
  apply wf_table_ids in Hr as [hi Hr]. exists hi.
  unfold turns_of. now apply ids_between_filter.
Qed.

Lemma newest_first_turns owner s :
  wf_store s = true ->
  order_by_desc r_id (turns_of owner s) = rev (turns_of owner s).
Proof.
  intros Hwf. destruct (turns_of_ids owner s Hwf) as [hi H].
  eapply order_by_desc_rev; exact H.
Qed.

(** An append for the owner puts the new turn after the owner's turns; an
    append for another agent leaves them as they are. *)
Lemma turns_after_save owner agent um ar sid now s :
  turns_of owner (final_store (save_agent_response agent um ar sid now s))
  = turns_of owner s
    ++ (if (agent =? owner)%string
        then [mk_response
                (seq (match agent_responses s with
                      | Some t => t
                      | None => empty_table
                      end) + 1) agent um ar sid now]
        else []).
Proof.
  rewrite save_agent_response_eq. unfold turns_of, insert_row.
  cbn [final_store agent_responses rows_of rows].
  rewrite filter_app. cbn [filter r_agent].
  destruct (agent_responses s) as [t|];
    destruct (agent =? owner)%string; reflexivity.
Qed.

(** C1. For a positive limit K and an owner with at least K stored turns,
    [get_recent_conversations owner K] returns exactly the last K turns of
    that owner, oldest first; this is the reversal of the newest-first fetch
    bounded by K. *)
Theorem recent_conversation_last_turns (s : store) (owner : string) (K : Z) :
  wf_store s = true ->
  0 < K ->
  K <= Z.of_nat (List.length (turns_of owner s)) ->
  get_recent_conversations owner K s
  = Returns (map turn_of (lastn (Z.to_nat K) (turns_of owner s)))
      (after_init s)
  /\ List.length (lastn (Z.to_nat K) (turns_of owner s)) = Z.to_nat K
  /\ lastn (Z.to_nat K) (turns_of owner s)
     = rev (sql_limit K (order_by_desc r_id (turns_of owner s))).
Proof.
  intros Hwf HK HN.
  assert (Hfetch : sql_limit K (order_by_desc r_id (turns_of owner s))
                   = firstn (Z.to_nat K) (rev (turns_of owner s))).
  { rewrite newest_first_turns by exact Hwf.
    unfold sql_limit. destruct (Z.ltb_spec K 0); [lia|reflexivity]. }
  split; [|split].
  - rewrite get_recent_conversations_eq. fold (turns_of owner s).
    rewrite Hfetch. f_equal.
    rewrite <- map_rev, rev_firstn_rev, map_map. reflexivity.
  - unfold lastn. rewrite length_skipn. lia.
  - rewrite Hfetch, rev_firstn_rev. reflexivity.
Qed.

Lemma recent_conversation_last_turns_witness :
  value_of (get_recent_conversations "a" 3 sample_turns)
  = Some [ mk_conversation 4 "q3" "r3" (Some "s") "t4";
           mk_conversation 6 "q4" "r4" None "t6";
           mk_conversation 7 "q5" "r5" None "t7" ].
Proof.
  destruct (recent_conversation_last_turns sample_turns "a" 3) as [H _].
  - reflexivity.
  - lia.
  - vm_compute. discriminate.
  - rewrite H. reflexivity.
Defined.

(** ** Limit clamping *)

(** C3, as stated, fails on [get_recent_conversations]: the storage-level
    function passes its limit to the LIMIT clause unchanged, so a limit of 0
    fetches nothing where a limit of 1 fetches the newest turn. *)
Lemma recent_conversation_limit_not_clamped :
  value_of (get_recent_conversations "a" 0 sample_turns) = Some []
  /\ value_of (get_recent_conversations "a" 1 sample_turns)
     = Some [mk_conversation 7 "q5" "r5" None "t7"]
  /\ get_recent_conversations "a" 0 sample_turns
     <> get_recent_conversations "a" 1 sample_turns.
Proof.
  split; [reflexivity|]. split; [reflexivity|].
  intros H. apply (f_equal value_of) in H. vm_compute in H. discriminate H.
Qed.

(** C3, amended. The clamp to the range 1..10 is applied by the memory tool
    that [get_memory_tool] builds for an owner: any limit of 10 or more gives
    the result of limit 10, and any limit of 1 or less (0 and the negative
    limits included) gives the result of limit 1. *)
Theorem get_memory_clamps_limit (owner : string) (s : store) (hi lo : Z) :
  10 <= hi ->
  lo <= 1 ->
  get_memory_tool owner hi s = get_memory_tool owner 10 s
  /\ get_memory_tool owner lo s = get_memory_tool owner 1 s.
Proof.
  intros Hhi Hlo. unfold get_memory_tool.
  replace (Z.max 1 (Z.min 10 hi)) with 10 by lia.
  replace (Z.max 1 (Z.min 10 lo)) with 1 by lia.
  split; reflexivity.
Qed.

Lemma get_memory_clamps_limit_witness :
  get_memory_tool "a" 999 sample_turns = get_memory_tool "a" 10 sample_turns
  /\ get_memory_tool "a" (-3) sample_turns = get_memory_tool "a" 1 sample_turns.
Proof.
  apply (get_memory_clamps_limit "a" sample_turns 999 (-3)); lia.
Defined.

(** ** The context string of an owner without history *)

Lemma sql_limit_nil {R : Type} (n : Z) : sql_limit n (@nil R) = [].
Proof. unfold sql_limit. destruct (n <? 0); [reflexivity|apply firstn_nil]. Qed.

(** C6, as stated, fails for a limit that sqlite3 cannot bind: for the
    limit 2^63 and an owner without stored turns, the call raises
    OverflowError when the limit is bound and returns no string. *)
Lemma format_memory_limit_overflow :
  turns_of "c" sample_turns = []
  /\ fits_int64 (2 ^ 63) = false
  /\ bound_limit (2 ^ 63) (format_memory_for_context "c" (2 ^ 63)) sample_turns
     = Raises overflow (after_init sample_turns)
  /\ value_of
       (bound_limit (2 ^ 63) (format_memory_for_context "c" (2 ^ 63))
          sample_turns) = None.
Proof. repeat split; reflexivity. Qed.

(** C6, amended. For an owner without stored turns and for every limit that
    fits a signed 64-bit integer, [format_memory_for_context] returns the
    fixed sentence [no_history], which is not the empty string; the call
    returns and does not raise. *)
Theorem format_memory_no_history (s : store) (owner : string) (limit : Z) :
  fits_int64 limit = true ->
  turns_of owner s = [] ->
  format_memory_for_context owner limit s = Returns no_history (after_init s)
  /\ bound_limit limit (format_memory_for_context owner limit) s
     = Returns no_history (after_init s)
  /\ no_history <> EmptyString.
Proof.
  intros Hfits Hnone.
  assert (Hcall : format_memory_for_context owner limit s
                  = Returns no_history (after_init s)).
  { unfold format_memory_for_context, bind.
    rewrite get_recent_conversations_eq. fold (turns_of owner s).
    rewrite Hnone. simpl. rewrite sql_limit_nil. reflexivity. }
  split; [exact Hcall|]. split; [|discriminate].
  unfold bound_limit. now rewrite Hfits.
Qed.

Lemma format_memory_no_history_witness :
  format_memory_for_context "c" 5 sample_turns
  = Returns no_history (after_init sample_turns)
  /\ bound_limit 5 (format_memory_for_context "c" 5) sample_turns
     = Returns no_history (after_init sample_turns)
  /\ no_history <> EmptyString.
Proof.
  apply (format_memory_no_history sample_turns "c" 5); reflexivity.
Defined.

(** ** Schema creation *)

(** C9. [init_db] returns from every file; a second call in succession
    leaves the file of the first call; no stored row is lost; and every call
    that follows gives the same outcome after two calls as after one. *)
Theorem init_db_idempotent (s : store) :
  init_db s = Returns tt (after_init s)
  /\ (init_db ;;; init_db) s = init_db s
  /\ rows_of (journals (after_init s)) = rows_of (journals s)
  /\ rows_of (playlists (after_init s)) = rows_of (playlists s)
  /\ rows_of (agent_responses (after_init s)) = rows_of (agent_responses s)
  /\ forall (A : Type) (call : M A),
       (init_db ;;; init_db ;;; call) s = (init_db ;;; call) s.
Proof.
  assert (Htwice : forall (A : Type) (k : M A),
             (init_db ;;; init_db ;;; k) s = (init_db ;;; k) s).
  { intros A k. unfold bind, init_db. simpl.
    destruct (journals s), (playlists s), (agent_responses s); reflexivity. }
  split; [reflexivity|]. split.
  - unfold bind, init_db. simpl.
    destruct (journals s), (playlists s), (agent_responses s); reflexivity.
  - unfold after_init. simpl. rewrite !rows_of_create.
    repeat split; try reflexivity. exact Htwice.
Qed.

(** ** The log only grows *)

Lemma format_memory_for_context_store agent_name limit s :
  final_store (format_memory_for_context agent_name limit s) = after_init s.
Proof.
  unfold format_memory_for_context, bind.
  rewrite get_recent_conversations_eq.
  match goal with |- context [match ?l with [] => _ | _ :: _ => _ end] =>
    destruct l end; reflexivity.
Qed.

Lemma get_memory_tool_store agent_name limit s :
  final_store (get_memory_tool agent_name limit s) = after_init s.
Proof.
  unfold get_memory_tool, bind.
  rewrite get_recent_conversations_eq.
  pose proof (format_memory_for_context_store agent_name
                (Z.max 1 (Z.min 10 limit)) (after_init s)) as H.
  destruct (format_memory_for_context agent_name
              (Z.max 1 (Z.min 10 limit)) (after_init s));
    simpl in *; rewrite H; apply after_init_idem.
Qed.

(** What a call leaves behind: the file of [init_db], with one more row in
    one table when the call is an append. *)
Inductive effect_of (s : store) : store -> Prop :=
| effect_read : effect_of s (after_init s)
| effect_journal agent entry tags now :
    effect_of s (final_store (save_journal agent entry tags now s))
| effect_playlist name items now :
    effect_of s (final_store (save_playlist name items now s))
| effect_response agent um ar sid now :
    effect_of s (final_store (save_agent_response agent um ar sid now s)).

Lemma exec_effect o s : effect_of s (exec o s).
Proof.
  destruct o; simpl;
    try rewrite list_journals_eq; try rewrite get_journals_by_agent_eq;
    try rewrite search_journals_eq; try rewrite list_playlists_eq;
    try rewrite get_agent_memory_eq; try rewrite get_recent_conversations_eq;
    try rewrite format_memory_for_context_store;
    try rewrite get_memory_tool_store;
    try (apply effect_read); try (apply effect_journal);
    try (apply effect_playlist); apply effect_response.
Qed.

Lemma extends_refl {A : Type} (l : list A) : extends l l.
Proof. exists []. now rewrite app_nil_r. Qed.

Lemma extends_snoc {A : Type} (l : list A) x : extends l (l ++ [x]).
Proof. now exists [x]. Qed.

Lemma effect_extends s s' :
  effect_of s s' ->
  extends (rows_of (journals s)) (rows_of (journals s'))
  /\ extends (rows_of (playlists s)) (rows_of (playlists s'))
  /\ extends (rows_of (agent_responses s)) (rows_of (agent_responses s')).
Proof.
  intros H. destruct H.
  - unfold after_init. simpl. rewrite !rows_of_create.
    repeat split; apply extends_refl.
  - rewrite save_journal_eq. simpl. rewrite !rows_of_create.
    repeat split; try apply extends_refl.
    destruct (journals s); apply extends_snoc.
  - rewrite save_playlist_eq. simpl. rewrite !rows_of_create.
    repeat split; try apply extends_refl.
    destruct (playlists s); apply extends_snoc.
  - rewrite save_agent_response_eq. simpl. rewrite !rows_of_create.
    repeat split; try apply extends_refl.
    destruct (agent_responses s); apply extends_snoc.
Qed.

Lemma wf_insert_row {R : Type} (key : R -> Z) (mk : Z -> R)
    (t : option (table R)) :
  (forall i, key (mk i) = i) ->
  wf_table key t = true ->
  wf_table key
    (Some (insert_row mk (match t with Some t => t | None => empty_table end)))
  = true.
Proof.
  intros Hkey Hwf. unfold wf_table, insert_row.
  destruct t as [t|]; simpl.
  - simpl in Hwf. apply ids_between_snoc; [exact Hwf|apply Hkey].
  - rewrite Hkey. reflexivity.
Qed.

Lemma effect_wf s s' : effect_of s s' -> wf_store s = true -> wf_store s' = true.
Proof.
  intros H Hwf. destruct H.
  - now rewrite wf_after_init.
  - rewrite save_journal_eq. apply wf_store_tables in Hwf as (Hj & Hp & Hr).
    unfold wf_store. cbn [final_store journals playlists agent_responses]. rewrite !wf_table_create, Hp, Hr.
    rewrite (wf_insert_row j_id); auto.
  - rewrite save_playlist_eq. apply wf_store_tables in Hwf as (Hj & Hp & Hr).
    unfold wf_store. cbn [final_store journals playlists agent_responses]. rewrite !wf_table_create, Hj, Hr.
    rewrite (wf_insert_row p_id); auto.
  - rewrite save_agent_response_eq.
    apply wf_store_tables in Hwf as (Hj & Hp & Hr).
    unfold wf_store. cbn [final_store journals playlists agent_responses]. rewrite !wf_table_create, Hj, Hp.
    rewrite (wf_insert_row r_id); auto.
Qed.

Lemma run_snoc ops o s : run (ops ++ [o]) s = exec o (run ops s).
Proof. unfold run. now rewrite fold_left_app. Qed.

(** Every file that the calls reach from a well-formed one is well formed. *)
Lemma run_wf ops s : wf_store s = true -> wf_store (run ops s) = true.
Proof.
  revert s. induction ops as [|o ops IH]; intros s Hwf; [exact Hwf|].
  simpl. apply IH. eapply effect_wf; [apply exec_effect|exact Hwf].
Qed.

Lemma ids_between_sorted lo ids hi :
  ids_between lo ids hi = true -> StronglySorted Z.lt ids.
Proof.
  revert lo. induction ids as [|i r IH]; intros lo H; [constructor|].
  simpl in H. apply andb_true_iff in H as [_ H].
  constructor; [eapply IH; exact H|].
  apply ids_between_above in H.
  eapply Forall_impl; [|exact H]. simpl. intros; lia.
Qed.

Lemma wf_table_sorted {R : Type} (key : R -> Z) (t : option (table R)) :
  wf_table key t = true -> StronglySorted Z.lt (map key (rows_of t)).
Proof.
  intros H. apply wf_table_ids in H as [hi H].
  eapply ids_between_sorted; exact H.
Qed.

(** No call raises: each one creates the tables before it uses them. *)
Lemma no_call_raises o s : raised o s = false.
Proof.
  destruct o; simpl;
    try rewrite list_journals_eq; try rewrite get_journals_by_agent_eq;
    try rewrite search_journals_eq; try rewrite list_playlists_eq;
    try rewrite get_agent_memory_eq; try rewrite get_recent_conversations_eq;
    try rewrite save_journal_eq; try rewrite save_playlist_eq;
    try rewrite save_agent_response_eq; try reflexivity.
  - unfold format_memory_for_context, bind.
    rewrite get_recent_conversations_eq.
    match goal with |- context [match ?l with [] => _ | _ :: _ => _ end] =>
      destruct l end; reflexivity.
  - unfold get_memory_tool, bind. rewrite get_recent_conversations_eq.
    unfold format_memory_for_context, bind.
    rewrite get_recent_conversations_eq.
    match goal with |- context [match ?l with [] => _ | _ :: _ => _ end] =>
      destruct l end; reflexivity.
Qed.

(** C8. In every file reached by calls of this module from a fresh file,
    one more call (an append or a read) leaves each table as an extension of
    what it was: the rows stored before are all there, unchanged and in the
    same order; and in each table the ids increase strictly in insertion
    order, so each id is unique and above the ids of all rows appended
    before. *)
Theorem append_only_log (ops : list op) (o : op) :
  let s := run ops no_file in
  let s' := exec o s in
  (extends (rows_of (journals s)) (rows_of (journals s'))
   /\ extends (rows_of (playlists s)) (rows_of (playlists s'))
   /\ extends (rows_of (agent_responses s)) (rows_of (agent_responses s')))
  /\ (StronglySorted Z.lt (map j_id (rows_of (journals s')))
      /\ StronglySorted Z.lt (map p_id (rows_of (playlists s')))
      /\ StronglySorted Z.lt (map r_id (rows_of (agent_responses s'))))
  /\ (NoDup (map j_id (rows_of (journals s')))
      /\ NoDup (map p_id (rows_of (playlists s')))
      /\ NoDup (map r_id (rows_of (agent_responses s')))).
Proof.
  intros s s'.
  assert (Hwf : wf_store s' = true).
  { unfold s', s. rewrite <- run_snoc. apply run_wf. reflexivity. }
  apply wf_store_tables in Hwf as (Hj & Hp & Hr).
  apply wf_table_sorted in Hj, Hp, Hr.
  split; [apply effect_extends, exec_effect|].
  split; [auto|].
  assert (Hnodup : forall l, StronglySorted Z.lt l -> NoDup l).
  { induction 1 as [|i l _ IH Hall]; constructor; [|exact IH].
    intros Hin. rewrite Forall_forall in Hall. specialize (Hall _ Hin). lia. }
  auto.
Qed.

(** ** Journals of one owner *)

Lemma journals_after_save agent entry tags now s :
  rows_of (journals (final_store (save_journal agent entry tags now s)))
  = rows_of (journals s)
    ++ [mk_journal
          (seq (match journals s with Some t => t | None => empty_table end) + 1)
          agent entry (json_dumps tags) now].
Proof. rewrite save_journal_eq. destruct (journals s); reflexivity. Qed.

Lemma run_saves_agents calls s :
  map j_agent (rows_of (journals (run (map save_op calls) s)))
  = map j_agent (rows_of (journals s)) ++ map jc_agent calls.
Proof.
  revert s. induction calls as [|c calls IH]; intros s; simpl.
  - now rewrite app_nil_r.
  - change (run (save_op c :: map save_op calls) s)
      with (run (map save_op calls) (exec (save_op c) s)).
    rewrite IH. cbn [exec].
    rewrite journals_after_save, map_app, <- app_assoc. reflexivity.
Qed.

Lemma length_filter_map {A B : Type} (f : B -> bool) (g : A -> B) l :
  List.length (filter (fun x => f (g x)) l)
  = List.length (filter f (map g l)).
Proof.
  induction l as [|x l IH]; simpl; [reflexivity|].
  destruct (f (g x)); simpl; now rewrite IH.
Qed.

(** C4. After any sequence of journal appends on a fresh file, of which N
    are for owner A and M for owner B, [get_journals_by_agent A (N+M)]
    returns exactly N rows, each of owner A, with strictly decreasing ids. *)
Theorem journals_by_owner (A B : string) (calls : list journal_call) :
  let N := count_owner A calls in
  let M := count_owner B calls in
  let s := run (map save_op calls) no_file in
  exists found,
    get_journals_by_agent A (Z.of_nat (N + M)) s = Returns found (after_init s)
    /\ List.length found = N
    /\ Forall (fun r => j_agent r = A) found
    /\ strictly_decreasing (map j_id found) = true.
Proof.
  intros N M s.
  set (mine := filter (fun r => (j_agent r =? A)%string) (rows_of (journals s))).
  assert (Hwf : wf_store s = true) by (apply run_wf; reflexivity).
  apply wf_store_tables in Hwf as (Hj & _ & _).
  apply wf_table_ids in Hj as [hi Hj].
  pose proof (ids_between_filter j_id (fun r => (j_agent r =? A)%string)
                _ _ _ Hj) as Hmine.
  fold mine in Hmine.
  assert (Hlen : List.length mine = N).
  { unfold mine, N, count_owner.
    rewrite (length_filter_map (fun a => (a =? A)%string) j_agent).
    rewrite (length_filter_map (fun a => (a =? A)%string) jc_agent).
    unfold s. rewrite run_saves_agents. reflexivity. }
  exists (rev mine). split; [|split; [|split]].
  - rewrite get_journals_by_agent_eq. fold mine.
    rewrite (order_by_desc_rev j_id _ _ _ Hmine).
    rewrite sql_limit_all; [reflexivity|].
    right. rewrite length_rev, Hlen. lia.
  - now rewrite length_rev.
  - apply Forall_rev. apply Forall_forall. intros r Hin.
    apply filter_In in Hin as [_ Hin]. now apply String.eqb_eq.
  - eapply strictly_decreasing_rev; exact Hmine.
Qed.

(** ** Playlists: what is stored decodes to what was appended *)

Lemma append_assoc (a b c : string) : ((a ++ b) ++ c = a ++ (b ++ c))%string.
Proof. induction a as [|x a IH]; simpl; [reflexivity|now rewrite IH]. Qed.

Lemma length_append (a b : string) :
  String.length (a ++ b) = (String.length a + String.length b)%nat.
Proof. induction a as [|x a IH]; simpl; [reflexivity|now rewrite IH]. Qed.

(** Reading the escape of one character gives the character back. *)
Lemma parse_escape_char (c : ascii) (rest : string) :
  parse_string_body (json_escape_char c ++ rest)
  = cons_char c (parse_string_body rest).
Proof.
  destruct c as [[|] [|] [|] [|] [|] [|] [|] [|]]; reflexivity.
Qed.

Lemma parse_escape (s rest : string) :
  parse_string_body (json_escape s ++ String dquote rest) = Some (s, rest).
Proof.
  induction s as [|c s IH]; [reflexivity|].
  simpl json_escape. rewrite append_assoc, parse_escape_char, IH.
  reflexivity.
Qed.

Lemma encode_string_append (x tail : string) :
  (json_encode_string x ++ tail
   = String dquote (json_escape x ++ String dquote tail))%string.
Proof.
  unfold json_encode_string. simpl. now rewrite append_assoc.
Qed.

Lemma parse_elems_encoded (xs : list string) :
  forall (x : string) (fuel : nat),
    (List.length xs < fuel)%nat ->
    parse_elems fuel (concat ", " (map json_encode_string (x :: xs)) ++ "]")
    = Some (x :: xs).
Proof.
  induction xs as [|y ys IH]; intros x fuel Hfuel.
  - destruct fuel as [|fuel]; [simpl in Hfuel; lia|].
    simpl map. simpl concat. rewrite encode_string_append.
    simpl. rewrite parse_escape. reflexivity.
  - destruct fuel as [|fuel]; [simpl in Hfuel; lia|].
    change (concat ", " (map json_encode_string (x :: y :: ys)))
      with (json_encode_string x
            ++ ", " ++ concat ", " (map json_encode_string (y :: ys)))%string.
    rewrite append_assoc.
    remember (concat ", " (map json_encode_string (y :: ys))) as body.
    change ((", " ++ body) ++ "]")%string
      with (String "," (String " " (body ++ "]")))%string.
    remember (body ++ "]")%string as tail.
    rewrite encode_string_append.
    assert (Hskip : forall f t, parse_elems f (String " " t) = parse_elems f t)
      by (intros [|f] t; reflexivity).
    simpl. rewrite parse_escape. simpl. rewrite Hskip. subst tail body.
    rewrite IH by (simpl in Hfuel; lia). reflexivity.
Qed.

Lemma concat_encoded_length (l : list string) :
  (List.length l
   <= String.length (concat ", " (map json_encode_string l)))%nat.
Proof.
  induction l as [|x l IH]; [apply le_n|].
  destruct l as [|y l'].
  - simpl. lia.
  - change (concat ", " (map json_encode_string (x :: y :: l')))
      with (json_encode_string x
            ++ ", " ++ concat ", " (map json_encode_string (y :: l')))%string.
    rewrite !length_append. simpl List.length in *. simpl String.length at 2.
    lia.
Qed.

Lemma json_loads_array (t : string) :
  json_loads (String "[" (String dquote t))
  = option_map Some
      (parse_elems (S (S (S (String.length t)))) (String dquote t)).
Proof. reflexivity. Qed.

(** Decoding what [json.dumps] wrote gives the value back. *)
Lemma json_loads_dumps (v : option (list string)) :
  json_loads (json_dumps v) = Some v.
Proof.
  destruct v as [[|x xs]|]; try reflexivity.
  unfold json_dumps, json_dumps_list.
  pose proof (parse_elems_encoded xs x) as Hparse.
  pose proof (concat_encoded_length (x :: xs)) as Hlen.
  remember (concat ", " (map json_encode_string (x :: xs))) as body.
  assert (Hhead : exists t, (body ++ "]")%string = String dquote t).
  { subst body. destruct xs; simpl; eexists; reflexivity. }
  destruct Hhead as [t Ht].
  change ("[" ++ body ++ "]")%string with (String "[" (body ++ "]"))%string.
  rewrite Ht, json_loads_array, <- Ht, Hparse; [reflexivity|].
  assert (Hl : String.length (body ++ "]") = S (String.length t))
    by now rewrite Ht.
  rewrite length_append in Hl. simpl in Hl, Hlen. lia.
Qed.

Lemma newest_row_first {R : Type} (key : R -> Z) (mk : Z -> R)
    (t : option (table R)) :
  (forall i, key (mk i) = i) ->
  wf_table key t = true ->
  let t0 := match t with Some t => t | None => empty_table end in
  sql_limit 1 (order_by_desc key (rows (insert_row mk t0)))
  = [mk (seq t0 + 1)].
Proof.
  intros Hkey Hwf t0.
  pose proof (wf_insert_row key mk t Hkey Hwf) as Hnew. fold t0 in Hnew.
  unfold wf_table in Hnew.
  rewrite (order_by_desc_rev key _ _ _ Hnew).
  unfold insert_row. simpl rows. rewrite rev_app_distr. reflexivity.
Qed.

(** C5. On a well-formed file, [save_playlist name items] followed by
    [list_playlists 1] returns exactly one row: the playlist just appended,
    whose items column decodes to the appended items, the same values in the
    same order. *)
Theorem playlist_round_trip (s : store) (name : string) (items : list string)
    (now : timestamp) :
  wf_store s = true ->
  exists row s',
    (save_playlist name items now ;;; list_playlists 1) s = Returns [row] s'
    /\ p_name row = name
    /\ json_loads (p_items row) = Some (Some items).
Proof.
  intros Hwf. apply wf_store_tables in Hwf as (_ & Hp & _).
  unfold bind. rewrite save_playlist_eq, list_playlists_eq.
  cbn [playlists rows_of].
  rewrite (newest_row_first p_id) by (auto || exact Hp).
  eexists. eexists. split; [reflexivity|]. split; [reflexivity|].
  apply json_loads_dumps.
Qed.

Lemma playlist_round_trip_witness :
  exists row s',
    (save_playlist "X" ["a"; "b"; "c"] "t8" ;;; list_playlists 1) sample_turns
    = Returns [row] s'
    /\ p_name row = "X"
    /\ json_loads (p_items row) = Some (Some ["a"; "b"; "c"]).
Proof.
  apply (playlist_round_trip sample_turns "X" ["a"; "b"; "c"] "t8").
  reflexivity.
Defined.

(** ** Searching the journals *)

Lemma like_percent_unfold (p s : string) :
  like_match (String "%" p) s
  = like_match p s ||
    match s with
    | EmptyString => false
    | String _ s' => like_match (String "%" p) s'
    end.
Proof. destruct s; reflexivity. Qed.

Lemma like_percent_any (s : string) : like_match "%" s = true.
Proof.
  induction s as [|c s IH]; [reflexivity|].
  rewrite like_percent_unfold. simpl orb. exact IH.
Qed.

Lemma like_literal (c : ascii) (p s : string) :
  (c =? "%")%char = false -> (c =? "_")%char = false ->
  like_match (String c p) s
  = match s with
    | EmptyString => false
    | String d s' => (sql_fold c =? sql_fold d)%char && like_match p s'
    end.
Proof. intros H1 H2. simpl. rewrite H1, H2. reflexivity. Qed.

(** A pattern without wildcards followed by a percent sign matches the texts
    that start with it, up to ASCII case. *)
Lemma like_prefix (t s : string) :
  wildcard_free t = true ->
  like_match (t ++ "%") s = folded_prefix t s.
Proof.
  revert s. induction t as [|c t IH]; intros s Hfree.
  - apply like_percent_any.
  - simpl in Hfree.
    apply andb_true_iff in Hfree as [Hc Hfree].
    apply andb_true_iff in Hc as [Hc1 Hc2].
    apply negb_true_iff in Hc1, Hc2.
    change (String c t ++ "%")%string with (String c (t ++ "%")).
    rewrite like_literal by assumption.
    destruct s as [|d s]; [reflexivity|]. simpl. now rewrite IH.
Qed.

(** A pattern without wildcards between two percent signs matches the texts
    that contain it, up to ASCII case. *)
Lemma like_contains (t s : string) :
  wildcard_free t = true ->
  like_match ("%" ++ t ++ "%") s = folded_substring t s.
Proof.
  intros Hfree. change ("%" ++ t ++ "%")%string with (String "%" (t ++ "%")).
  induction s as [|d s IH]; rewrite like_percent_unfold, like_prefix by exact Hfree.
  - simpl. now rewrite orb_false_r.
  - rewrite IH. reflexivity.
Qed.

Lemma prefix_sql_lower (t s : string) :
  prefix (sql_lower t) (sql_lower s) = folded_prefix t s.
Proof.
  revert s. induction t as [|c t IH]; intros [|d s]; simpl; try reflexivity.
  destruct (ascii_dec (sql_fold c) (sql_fold d)) as [Heq|Hne].
  - rewrite Heq, Ascii.eqb_refl. apply IH.
  - apply Ascii.eqb_neq in Hne. now rewrite Hne.
Qed.

(** Containment up to ASCII case is containment of the lower-cased texts. *)
Lemma folded_substring_lower (t s : string) :
  folded_substring t s = is_substring (sql_lower t) (sql_lower s).
Proof.
  induction s as [|d s IH].
  - simpl. now rewrite <- (prefix_sql_lower t EmptyString).
  - simpl folded_substring. rewrite IH, <- prefix_sql_lower. reflexivity.
Qed.

Lemma prefix_folded (t s : string) :
  prefix t s = true -> folded_prefix t s = true.
Proof.
  revert s. induction t as [|c t IH]; intros [|d s]; simpl; try easy.
  destruct (ascii_dec c d) as [->|]; [|discriminate].
  intros H. rewrite Ascii.eqb_refl. now apply IH.
Qed.

Lemma is_substring_folded (t s : string) :
  is_substring t s = true -> folded_substring t s = true.
Proof.
  induction s as [|d s IH]; simpl; intros H;
    apply orb_true_iff in H as [H|H]; try discriminate;
    apply orb_true_iff; auto using prefix_folded.
Qed.

Lemma prefix_wildcard_free (t s : string) :
  prefix t s = true -> wildcard_free s = true -> wildcard_free t = true.
Proof.
  revert s. induction t as [|c t IH]; intros [|d s]; simpl; try easy.
  destruct (ascii_dec c d) as [->|]; [|discriminate].
  intros H Hs. apply andb_true_iff in Hs as [Hd Hs].
  rewrite Hd. now apply (IH s).
Qed.

Lemma is_substring_wildcard_free (t s : string) :
  is_substring t s = true -> wildcard_free s = true -> wildcard_free t = true.
Proof.
  induction s as [|d s IH]; simpl; intros H Hs;
    apply orb_true_iff in H as [H|H]; try discriminate.
  - now apply (prefix_wildcard_free t EmptyString).
  - now apply (prefix_wildcard_free t (String d s)).
  - apply andb_true_iff in Hs as [_ Hs]. now apply IH.
Qed.

(** The WHERE clause for a term without wildcards. *)
Lemma search_where_folded (term : string) (r : journal_row) :
  wildcard_free term = true ->
  search_where term r
  = is_substring (sql_lower term) (sql_lower (j_entry r))
    || is_substring (sql_lower term) (sql_lower (j_tags r)).
Proof.
  intros Hfree. unfold search_where.
  now rewrite !like_contains, !folded_substring_lower by exact Hfree.
Qed.

Lemma journal_ids s :
  wf_store s = true ->
  forall p, exists hi,
    ids_between 0 (map j_id (filter p (rows_of (journals s)))) hi = true.
Proof.
  intros Hwf p. apply wf_store_tables in Hwf as (Hj & _ & _).
  apply wf_table_ids in Hj as [hi Hj]. exists hi.
  now apply ids_between_filter.
Qed.

Lemma in_sql_limit {R : Type} (n : Z) (l : list R) (x : R) :
  In x (sql_limit n l) -> In x l.
Proof.
  unfold sql_limit. destruct (n <? 0); [easy|].
  intros H. rewrite <- (firstn_skipn (Z.to_nat n) l).
  apply in_or_app. now left.
Qed.

(** C2, as stated, fails: LIKE folds the case of ASCII letters, so the term
    hello finds an entry whose text has Hello, although the term is a
    case-sensitive substring neither of the text nor of the stored tags. *)
Lemma search_journals_ignores_case :
  let r := mk_journal 1 "x" "Hello World" "null" "t1" in
  In r (rows_of (journals sample_journals))
  /\ value_of (search_journals "hello" 20 sample_journals) = Some [r]
  /\ is_substring "hello" (j_entry r) = false
  /\ is_substring "hello" (j_tags r) = false.
Proof.
  simpl. split; [left; reflexivity|]. repeat split; reflexivity.
Qed.

(** C2, amended. On a well-formed file, for a limit that fits a signed
    64-bit integer, a term whose pattern LIKE accepts, and a term and stored
    texts without a character of code 0, [search_journals] returns without
    raising the entries whose text or serialised tags match the LIKE pattern
    made of the term between two percent signs: newest first, all of them
    for a negative limit and the first [limit] of them otherwise, so all of
    them also when the limit is at least the number of stored entries; when
    no entry matches the result is empty.  For a term without percent sign
    and underscore, an entry matches exactly when the term occurs in the
    text or in the serialised tags up to the case of ASCII letters. *)
Theorem search_journals_matches (s : store) (term : string) (limit : Z) :
  wf_store s = true ->
  fits_int64 limit = true ->
  pattern_fits term = true ->
  no_nul term = true ->
  forallb like_reads_all (rows_of (journals s)) = true ->
  let matches := filter (search_where term) (rows_of (journals s)) in
  exists found,
    search_journals term limit s = Returns found (after_init s)
    /\ found = (if limit <? 0 then rev matches
                else firstn (Z.to_nat limit) (rev matches))
    /\ strictly_decreasing (map j_id found) = true
    /\ (forall r, In r found ->
          In r (rows_of (journals s)) /\ search_where term r = true)
    /\ (limit < 0 \/ Z.of_nat (List.length (rows_of (journals s))) <= limit ->
        forall r, In r (rows_of (journals s)) -> search_where term r = true ->
                  In r found)
    /\ ((forall r, In r (rows_of (journals s)) -> search_where term r = false)
        -> found = [])
    /\ (wildcard_free term = true ->
        forall r,
          search_where term r
          = is_substring (sql_lower term) (sql_lower (j_entry r))
            || is_substring (sql_lower term) (sql_lower (j_tags r))).
Proof.
  intros Hwf _ _ _ _ hits.
  destruct (journal_ids s Hwf (search_where term)) as [hi Hids].
  fold hits in Hids.
  exists (sql_limit limit (rev hits)).
  assert (Hin : forall r, In r (sql_limit limit (rev hits)) ->
                          In r (rows_of (journals s))
                          /\ search_where term r = true).
  { intros r Hr. apply in_sql_limit in Hr. apply in_rev in Hr.
    now apply filter_In in Hr. }
  split; [|split; [|split; [|split; [|split; [|split]]]]].
  - rewrite search_journals_eq. fold hits.
    now rewrite (order_by_desc_rev j_id _ _ _ Hids).
  - reflexivity.
  - apply sql_limit_decreasing. eapply strictly_decreasing_rev; exact Hids.
  - exact Hin.
  - intros Hlimit r Hr Hmatch.
    rewrite sql_limit_all.
    + apply in_rev. rewrite rev_involutive. apply filter_In. now split.
    + destruct Hlimit as [Hneg|Hbig]; [now left|right].
      rewrite length_rev.
      pose proof (filter_length_le (search_where term) (rows_of (journals s))).
      fold hits in H. lia.
  - intros Hnone. destruct (sql_limit limit (rev hits)) as [|r l]; [reflexivity|].
    destruct (Hin r (or_introl eq_refl)) as [Hr Hmatch].
    rewrite (Hnone r Hr) in Hmatch. discriminate.
  - intros Hfree r. now apply search_where_folded.
Qed.

Lemma search_journals_matches_witness :
  exists found,
    search_journals "O" 1 sample_journals
    = Returns found (after_init sample_journals)
    /\ found = [mk_journal 2 "y" "notes" (json_dumps (Some ["Work"])) "t2"]
    /\ In (mk_journal 1 "x" "Hello World" "null" "t1")
         (filter (search_where "O") (rows_of (journals sample_journals))).
Proof.
  destruct (search_journals_matches sample_journals "O" 1)
    as (found & Heq & Hfound & _); try reflexivity.
  exists found. split; [exact Heq|]. split.
  - rewrite Hfound. reflexivity.
  - left. reflexivity.
Defined.

(** ** Entries stored without tags *)

Lemma filter_snoc {A : Type} (p : A -> bool) (l : list A) (x : A) :
  p x = true -> filter p (l ++ [x]) = filter p l ++ [x].
Proof. intros H. rewrite filter_app. simpl. now rewrite H. Qed.

Lemma sql_limit_head {R : Type} (n : Z) (x : R) (l : list R) :
  0 < n -> exists rest, sql_limit n (x :: l) = x :: rest.
Proof.
  intros Hn. unfold sql_limit. destruct (Z.ltb_spec n 0); [lia|].
  destruct (Z.to_nat n) as [|k] eqn:Hk; [lia|].
  exists (firstn k l). reflexivity.
Qed.

(** The term finds every text that holds it as it is written. *)
Lemma like_finds_substring (term text : string) :
  wildcard_free text = true ->
  is_substring term text = true ->
  like_match ("%" ++ term ++ "%") text = true.
Proof.
  intros Hfree Hsub.
  rewrite like_contains by (eapply is_substring_wildcard_free; eassumption).
  now apply is_substring_folded.
Qed.

(** C10. A journal appended without tags is stored with the four-character
    text null in its tags column.  For every term that is a substring of
    null, the WHERE clause of [search_journals] holds of every row whose
    tags column is null, whatever its text; and with a positive limit that
    fits a signed 64-bit integer both [search_journals] and [list_journals]
    return the entry just appended first, with null as its tags. *)
Theorem untagged_journal_null (s : store) (agent entry : string)
    (now : timestamp) (term : string) (limit : Z) :
  wf_store s = true ->
  is_substring term "null" = true ->
  0 < limit ->
  fits_int64 limit = true ->
  let s' := final_store (save_journal agent entry None now s) in
  json_dumps None = "null"
  /\ (forall r, j_tags r = "null" -> search_where term r = true)
  /\ exists row found listed,
       rows_of (journals s') = rows_of (journals s) ++ [row]
       /\ j_agent row = agent /\ j_entry row = entry /\ j_tags row = "null"
       /\ search_journals term limit s' = Returns (row :: found) (after_init s')
       /\ list_journals limit s' = Returns (row :: listed) (after_init s').
Proof.
  intros Hwf Hsub Hlimit _ s'.
  assert (Hnull : forall r, j_tags r = "null" -> search_where term r = true).
  { intros r Hr. unfold search_where. rewrite Hr.
    rewrite (like_finds_substring term "null") by (reflexivity || exact Hsub).
    apply orb_true_r. }
  split; [reflexivity|]. split; [exact Hnull|].
  pose proof (journals_after_save agent entry None now s) as Hrows.
  fold s' in Hrows. simpl json_dumps in Hrows.
  set (row := mk_journal
                (seq (match journals s with
                      | Some t => t
                      | None => empty_table
                      end) + 1) agent entry "null" now) in *.
  assert (Hwf' : wf_store s' = true).
  { unfold s'. eapply effect_wf; [apply effect_journal|exact Hwf]. }
  destruct (journal_ids s' Hwf' (search_where term)) as [hi1 Hids1].
  destruct (journal_ids s' Hwf' (fun _ => true)) as [hi2 Hids2].
  rewrite Hrows in Hids1, Hids2.
  rewrite filter_snoc in Hids1 by (apply Hnull; reflexivity).
  rewrite filter_snoc in Hids2 by reflexivity.
  destruct (sql_limit_head limit row
              (rev (filter (search_where term) (rows_of (journals s)))) Hlimit)
    as [found Hfound].
  destruct (sql_limit_head limit row
              (rev (filter (fun _ => true) (rows_of (journals s)))) Hlimit)
    as [listed Hlisted].
  exists row, found, listed.
  split; [exact Hrows|]. repeat (split; [reflexivity|]). split.
  - rewrite search_journals_eq, Hrows.
    rewrite filter_snoc by (apply Hnull; reflexivity).
    rewrite (order_by_desc_rev j_id _ _ _ Hids1), rev_app_distr.
    simpl app. now rewrite Hfound.
  - rewrite list_journals_eq, Hrows.
    assert (Hall : forall l : list journal_row, filter (fun _ => true) l = l).
    { induction l as [|x l IH]; simpl; [reflexivity|now rewrite IH]. }
    rewrite Hall in Hids2, Hlisted.
    rewrite (order_by_desc_rev j_id _ _ _ Hids2), rev_app_distr.
    simpl app. now rewrite Hlisted.
Qed.

Lemma untagged_journal_null_witness :
  exists row found listed,
    rows_of (journals
               (final_store (save_journal "z" "plain" None "t3" sample_journals)))
    = rows_of (journals sample_journals) ++ [row]
    /\ j_tags row = "null"
    /\ value_of (search_journals "ul" 20
                   (final_store
                      (save_journal "z" "plain" None "t3" sample_journals)))
       = Some (row :: found)
    /\ value_of (list_journals 20
                   (final_store
                      (save_journal "z" "plain" None "t3" sample_journals)))
       = Some (row :: listed).
Proof.
  destruct (untagged_journal_null sample_journals "z" "plain" "t3" "ul" 20)
    as (_ & _ & row & found & listed & Hrows & _ & _ & Htags & Hs & Hl).
  - reflexivity.
  - reflexivity.
  - lia.
  - reflexivity.
  - exists row, found, listed.
    rewrite Hs, Hl. repeat split; assumption.
Defined.

(** ** The tool-call boundary *)

(** [get_weather] returns a mapping with a status of the vocabulary for
    every city. *)
Lemma get_weather_status (city : string) : status_ok (get_weather city) = true.
Proof.
  unfold get_weather. destruct (py_lower city =? "new york")%string; reflexivity.
Qed.

(** [journal] returns a mapping with the status saved from every file. *)
Lemma journal_status (entry tags : string) (now : timestamp) (s : store) :
  exists s',
    journal entry tags now s
    = Returns [("status", PyStr "saved"); ("entry", PyStr entry)] s'.
Proof.
  unfold journal, bind. rewrite save_journal_eq. eexists. reflexivity.
Qed.

(** C7. [generate_django_model] does not return a mapping on a field with
    two colons: the assignment of the three parts of the field to the two
    names raises ValueError, and the exception leaves the tool function. *)
Theorem generate_django_model_raises (s : store) (now : timestamp) :
  generate_django_model "Post" "a:b:c" EmptyString now s
  = Raises (ValueError "too many values to unpack (expected 2)") s
  /\ value_of (generate_django_model "Post" "a:b:c" EmptyString now s) = None.
Proof. split; reflexivity. Qed.

(* ================================================================= *)
(** * Further properties of shared/db.py *)

(** ** Bounded and unbounded reads *)

Lemma firstn_rev_lastn {A : Type} (k : nat) (l : list A) :
  firstn k (rev l) = rev (lastn k l).
Proof. now rewrite <- rev_firstn_rev, rev_involutive. Qed.

Lemma length_lastn {A : Type} (k : nat) (l : list A) :
  List.length (lastn k l) = Nat.min k (List.length l).
Proof. unfold lastn. rewrite length_skipn. lia. Qed.

Lemma insert_desc_length {R : Type} (key : R -> Z) x l :
  List.length (insert_desc key x l) = S (List.length l).
Proof.
  induction l as [|y l IH]; simpl; [reflexivity|].
  destruct (key y <? key x); simpl; [reflexivity|now rewrite IH].
Qed.

Lemma order_by_desc_length {R : Type} (key : R -> Z) (l : list R) :
  List.length (order_by_desc key l) = List.length l.
Proof.
  induction l as [|x l IH]; [reflexivity|].
  unfold order_by_desc in *. simpl. now rewrite insert_desc_length, IH.
Qed.

Lemma sql_limit_length {R : Type} (n : Z) (l : list R) :
  0 <= n -> List.length (sql_limit n l) = Nat.min (Z.to_nat n) (List.length l).
Proof.
  intros Hn. unfold sql_limit. destruct (Z.ltb_spec n 0); [lia|].
  apply length_firstn.
Qed.

(** X1. With a limit that is not negative and fits a signed 64-bit
    integer, [list_journals] returns the newest rows, as many as the limit
    allows and never more, with strictly decreasing ids. *)
Theorem list_journals_newest (s : store) (limit : Z) :
  wf_store s = true ->
  0 <= limit ->
  fits_int64 limit = true ->
  let stored := rows_of (journals s) in
  exists found,
    list_journals limit s = Returns found (after_init s)
    /\ found = rev (lastn (Z.to_nat limit) stored)
    /\ List.length found = Nat.min (Z.to_nat limit) (List.length stored)
    /\ strictly_decreasing (map j_id found) = true.
Proof.
  intros Hwf Hlimit _ stored.
  apply wf_store_tables in Hwf as (Hj & _ & _).
  apply wf_table_ids in Hj as [hi Hj]. fold stored in Hj.
  exists (rev (lastn (Z.to_nat limit) stored)).
  assert (Heq : sql_limit limit (order_by_desc j_id stored)
                = rev (lastn (Z.to_nat limit) stored)).
  { rewrite (order_by_desc_rev j_id _ _ _ Hj). unfold sql_limit.
    destruct (Z.ltb_spec limit 0); [lia|]. apply firstn_rev_lastn. }
  split; [|split; [|split]].
  - rewrite list_journals_eq. fold stored. now rewrite Heq.
  - reflexivity.
  - now rewrite length_rev, length_lastn.
  - rewrite <- Heq. apply sql_limit_decreasing.
    rewrite (order_by_desc_rev j_id _ _ _ Hj).
    eapply strictly_decreasing_rev; exact Hj.
Qed.

Lemma list_journals_newest_witness :
  exists found,
    list_journals 2 sample_project = Returns found (after_init sample_project)
    /\ map j_id found = [3; 2].
Proof.
  destruct (list_journals_newest sample_project 2)
    as (found & Heq & Hfound & _).
  - reflexivity.
  - lia.
  - reflexivity.
  - exists found. split; [exact Heq|]. rewrite Hfound. reflexivity.
Defined.

(** X2. A negative limit that fits a signed 64-bit integer is no limit:
    [list_journals] returns every stored journal, [list_playlists] every
    playlist and [get_recent_conversations] every turn of the owner, the
    turns oldest first. *)
Theorem negative_limit_reads_all (s : store) (owner : string) (limit : Z) :
  wf_store s = true ->
  limit < 0 ->
  fits_int64 limit = true ->
  list_journals limit s = Returns (rev (rows_of (journals s))) (after_init s)
  /\ list_playlists limit s
     = Returns (rev (rows_of (playlists s))) (after_init s)
  /\ get_recent_conversations owner limit s
     = Returns (map turn_of (turns_of owner s)) (after_init s).
Proof.
  intros Hwf Hneg _.
  pose proof (newest_first_turns owner s Hwf) as Ht.
  apply wf_store_tables in Hwf as (Hj & Hp & _).
  apply wf_table_ids in Hj as [hj Hj]. apply wf_table_ids in Hp as [hp Hp].
  split; [|split].
  - rewrite list_journals_eq, sql_limit_all by now left.
    now rewrite (order_by_desc_rev j_id _ _ _ Hj).
  - rewrite list_playlists_eq, sql_limit_all by now left.
    now rewrite (order_by_desc_rev p_id _ _ _ Hp).
  - rewrite get_recent_conversations_eq. fold (turns_of owner s).
    rewrite sql_limit_all by now left.
    rewrite Ht, <- map_rev, rev_involutive, map_map. reflexivity.
Qed.

Lemma negative_limit_reads_all_witness :
  List.length (rows_of (journals sample_project)) = 3%nat
  /\ list_journals (-1) sample_project
     = Returns (rev (rows_of (journals sample_project)))
         (after_init sample_project).
Proof.
  split; [reflexivity|].
  apply (negative_limit_reads_all sample_project "a" (-1));
    [reflexivity|lia|reflexivity].
Defined.

(** ** Memory of one agent *)

(** X3. Memory is kept per agent: a turn saved for one agent changes neither
    the conversations nor the context string read for another owner. *)
Theorem memory_is_per_agent (s : store) (owner agent um ar : string)
    (sid : option string) (now : timestamp) (limit : Z) :
  agent <> owner ->
  let s' := final_store (save_agent_response agent um ar sid now s) in
  value_of (get_recent_conversations owner limit s')
  = value_of (get_recent_conversations owner limit s)
  /\ value_of (format_memory_for_context owner limit s')
     = value_of (format_memory_for_context owner limit s).
Proof.
  intros Hne s'.
  assert (Hturns : turns_of owner s' = turns_of owner s).
  { unfold s'. rewrite turns_after_save.
    apply String.eqb_neq in Hne. rewrite Hne. apply app_nil_r. }
  assert (Hconv : value_of (get_recent_conversations owner limit s')
                  = value_of (get_recent_conversations owner limit s)).
  { rewrite !get_recent_conversations_eq. fold (turns_of owner s').
    fold (turns_of owner s). now rewrite Hturns. }
  split; [exact Hconv|].
  unfold format_memory_for_context, bind.
  rewrite !get_recent_conversations_eq in *.
  fold (turns_of owner s') in *. fold (turns_of owner s) in *.
  rewrite Hturns.
  match goal with |- context [match ?l with [] => _ | _ :: _ => _ end] =>
    destruct l end; reflexivity.
Qed.

Lemma memory_is_per_agent_witness :
  value_of (get_recent_conversations "a" 5
              (final_store
                 (save_agent_response "b" "x3" "y3" None "t8" sample_turns)))
  = value_of (get_recent_conversations "a" 5 sample_turns).
Proof.
  apply (memory_is_per_agent sample_turns "a" "b" "x3" "y3" None "t8" 5).
  discriminate.
Defined.

(** X4. A turn just saved for an owner is the last of the conversations read
    for that owner with any positive limit that fits a signed 64-bit
    integer, and its id is above the ids of the turns before it. *)
Theorem saved_turn_is_latest (s : store) (owner um ar : string)
    (sid : option string) (now : timestamp) (limit : Z) :
  wf_store s = true ->
  0 < limit ->
  fits_int64 limit = true ->
  let s' := final_store (save_agent_response owner um ar sid now s) in
  exists earlier id,
    value_of (get_recent_conversations owner limit s')
    = Some (earlier ++ [mk_conversation id um ar sid now])
    /\ Forall (fun c => c_id c < id) earlier.
Proof.
  intros Hwf Hlimit _ s'.
  assert (Hwf' : wf_store s' = true).
  { unfold s'. eapply effect_wf; [apply effect_response|exact Hwf]. }
  pose proof (turns_after_save owner owner um ar sid now s) as Hturns.
  rewrite String.eqb_refl in Hturns. fold s' in Hturns.
  set (id := seq (match agent_responses s with
                  | Some t => t
                  | None => empty_table
                  end) + 1) in *.
  destruct (turns_of_ids owner s' Hwf') as [hi Hids].
  pose proof (newest_first_turns owner s' Hwf') as Hnew.
  rewrite Hturns in Hnew, Hids. rewrite rev_app_distr in Hnew. simpl in Hnew.
  destruct (sql_limit_head limit (mk_response id owner um ar sid now)
              (rev (turns_of owner s)) Hlimit) as [rest Hrest].
  exists (map conversation_of (rev (map memory_columns rest))), id. split.
  - rewrite get_recent_conversations_eq. fold (turns_of owner s').
    rewrite Hturns, Hnew, Hrest. simpl.
    now rewrite map_app.
  - assert (Hin : forall r, In r rest -> In r (turns_of owner s)).
    { intros r Hr. apply in_rev.
      assert (Hx : In r (sql_limit limit
                           (mk_response id owner um ar sid now
                              :: rev (turns_of owner s)))).
      { rewrite Hrest. now right. }
      apply in_sql_limit in Hx. destruct Hx as [Hx|Hx]; [|exact Hx].
      exfalso.
      assert (Hdec : strictly_decreasing
                       (map r_id (sql_limit limit
                                    (mk_response id owner um ar sid now
                                       :: rev (turns_of owner s)))) = true).
      { apply sql_limit_decreasing.
        pose proof (strictly_decreasing_rev r_id _ _ _ Hids) as Hd.
        rewrite rev_app_distr in Hd. exact Hd. }
      rewrite Hrest in Hdec. subst r.
      clear - Hdec Hr. simpl map in Hdec.
      assert (Hall : forall i l, strictly_decreasing (i :: l) = true ->
                                 Forall (fun j => j < i) l).
      { intros i l. revert i. induction l as [|j l IH]; intros i H.
        - constructor.
        - rewrite strictly_decreasing_cons in H.
          apply andb_true_iff in H as [H1 H2]. apply Z.ltb_lt in H1.
          constructor; [exact H1|].
          eapply Forall_impl; [|apply IH, H2]. simpl. intros; lia. }
      apply Hall in Hdec. rewrite Forall_forall in Hdec.
      specialize (Hdec id). simpl in Hdec.
      assert (id < id); [|lia]. apply Hdec.
      apply in_map_iff. eexists. split; [|exact Hr]. reflexivity. }
    apply ids_between_above in Hids. rewrite map_app, Forall_app in Hids.
    destruct Hids as [Hold Hlast]. simpl in Hlast.
    assert (Hbelow : Forall (fun r => r_id r < id) (turns_of owner s)).
    { pose proof (turns_of_ids owner s' Hwf') as [hi' Hids'].
      rewrite Hturns in Hids'.
      clear - Hids'. revert Hids'. generalize 0.
      induction (turns_of owner s) as [|r l IH]; intros lo H; [constructor|].
      simpl in H. apply andb_true_iff in H as [_ H].
      constructor; [|eapply IH; exact H].
      apply ids_between_above in H. rewrite map_app, Forall_app in H.
      destruct H as [_ H]. inversion H; subst. simpl in *. lia. }
    rewrite Forall_forall in Hbelow.
    apply Forall_forall. intros c Hc.
    apply in_map_iff in Hc as [m [<- Hm]]. apply in_rev in Hm.
    apply in_map_iff in Hm as [r [<- Hr]]. simpl. apply Hbelow, Hin, Hr.
Qed.

Lemma saved_turn_is_latest_witness :
  exists earlier id,
    value_of (get_recent_conversations "a" 3
                (final_store
                   (save_agent_response "a" "q6" "r6" None "t8" sample_turns)))
    = Some (earlier ++ [mk_conversation id "q6" "r6" None "t8"])
    /\ Forall (fun c => c_id c < id) earlier.
Proof.
  apply (saved_turn_is_latest sample_turns "a" "q6" "r6" None "t8" 3);
    [reflexivity|lia|reflexivity].
Defined.

Lemma order_by_desc_nil {R : Type} (key : R -> Z) (l : list R) :
  order_by_desc key l = [] -> l = [].
Proof.
  intros H. apply (f_equal (@List.length R)) in H.
  rewrite order_by_desc_length in H. now apply length_zero_iff_nil.
Qed.

Lemma sql_limit_nil_inv {R : Type} (n : Z) (l : list R) :
  n <> 0 -> sql_limit n l = [] -> l = [].
Proof.
  unfold sql_limit. intros Hn H. destruct (Z.ltb_spec n 0); [exact H|].
  destruct l as [|x l]; [reflexivity|].
  destruct (Z.to_nat n) eqn:Hk; [lia|discriminate].
Qed.

Lemma fetched_nil_iff owner limit s :
  limit <> 0 ->
  map conversation_of
    (rev (map memory_columns
            (sql_limit limit (order_by_desc r_id (turns_of owner s))))) = []
  <-> turns_of owner s = [].
Proof.
  intros Hn. split.
  - intros H. apply map_eq_nil in H.
    apply (f_equal (@rev memory_row)) in H. rewrite rev_involutive in H.
    simpl in H. apply map_eq_nil in H.
    apply sql_limit_nil_inv in H; [|exact Hn]. now apply order_by_desc_nil in H.
  - intros ->. simpl. now rewrite sql_limit_nil.
Qed.

Lemma context_sentinel (s : store) (owner : string) (limit : Z) :
  (limit <> 0 ->
   (value_of (format_memory_for_context owner limit s) = Some no_history
    <-> turns_of owner s = [])
   /\ (turns_of owner s <> [] ->
       exists rest,
         value_of (format_memory_for_context owner limit s)
         = Some ("Recent conversation history:" ++ newline ++ rest)%string))
  /\ value_of (format_memory_for_context owner 0 s) = Some no_history.
Proof.
  split.
  - intros Hn. pose proof (fetched_nil_iff owner limit s Hn) as Hiff.
    unfold format_memory_for_context, bind.
    rewrite get_recent_conversations_eq. fold (turns_of owner s).
    destruct (map conversation_of _) as [|c cs] eqn:Hc.
    + split; [split; [intros _; now apply Hiff|reflexivity]|].
      intros Hne. exfalso. apply Hne. now apply Hiff.
    + assert (Hout : exists rest,
                 py_join newline
                   ("Recent conversation history:"
                      :: flat_map context_lines (c :: cs))
                 = ("Recent conversation history:" ++ newline ++ rest)%string).
      { simpl. eexists. reflexivity. }
      destruct Hout as [rest Hout]. unfold ret. cbn [value_of]. rewrite Hout.
      split; [split|].
      * intros H. discriminate H.
      * intros Hnil. apply Hiff in Hnil. discriminate Hnil.
      * intros _. exists rest. reflexivity.
  - unfold format_memory_for_context, bind.
    rewrite get_recent_conversations_eq. reflexivity.
Qed.

(** X5. With a limit other than zero that fits a signed 64-bit integer,
    the context string is the sentence [no_history] exactly when the owner
    has no stored turn; with stored turns it starts with the heading line
    instead.  With limit zero it is always [no_history]. *)
Theorem context_is_sentinel_iff (s : store) (owner : string) (limit : Z) :
  fits_int64 limit = true ->
  (limit <> 0 ->
   (value_of (format_memory_for_context owner limit s) = Some no_history
    <-> turns_of owner s = [])
   /\ (turns_of owner s <> [] ->
       exists rest,
         value_of (format_memory_for_context owner limit s)
         = Some ("Recent conversation history:" ++ newline ++ rest)%string))
  /\ value_of (format_memory_for_context owner 0 s) = Some no_history.
Proof. intros _. apply context_sentinel. Qed.

Lemma context_is_sentinel_iff_witness :
  exists rest,
    value_of (format_memory_for_context "a" 1 sample_turns)
    = Some ("Recent conversation history:" ++ newline ++ rest)%string.
Proof.
  destruct (context_is_sentinel_iff sample_turns "a" 1) as [H _];
    [reflexivity|].
  destruct H as [_ H]; [lia|]. apply H. discriminate.
Defined.

Lemma turns_of_after_init owner s :
  turns_of owner (after_init s) = turns_of owner s.
Proof.
  unfold turns_of, after_init. simpl. now rewrite rows_of_create.
Qed.

(** X6. The memory tool of an owner returns the status success, the
    conversations, their number as count and the context string; there are
    as many conversations as the clamped limit allows, at most ten, they are
    the owner's latest turns, oldest first, and the context string is
    [no_history] exactly when there is none. *)
Theorem get_memory_result (s : store) (owner : string) (limit : Z) :
  wf_store s = true ->
  let k := Z.to_nat (Z.max 1 (Z.min 10 limit)) in
  exists context,
    get_memory_tool owner limit s
    = Returns
        (mk_memory_result "success"
           (map turn_of (lastn k (turns_of owner s)))
           (Z.of_nat (Nat.min k (List.length (turns_of owner s))))
           context)
        (after_init s)
    /\ (Nat.min k (List.length (turns_of owner s)) <= 10)%nat
    /\ (context = no_history <-> turns_of owner s = []).
Proof.
  intros Hwf k.
  set (L := Z.max 1 (Z.min 10 limit)).
  assert (HL : 1 <= L <= 10) by (unfold L; lia).
  assert (Hfetch : map conversation_of
                     (rev (map memory_columns
                             (sql_limit L
                                (order_by_desc r_id (turns_of owner s)))))
                   = map turn_of (lastn k (turns_of owner s))).
  { rewrite newest_first_turns by exact Hwf.
    unfold sql_limit. destruct (Z.ltb_spec L 0); [lia|].
    fold k. rewrite <- map_rev, rev_firstn_rev, map_map. reflexivity. }
  destruct (context_sentinel (after_init s) owner L) as [Hctx _].
  destruct Hctx as [Hctx _]; [lia|]. rewrite turns_of_after_init in Hctx.
  pose proof (format_memory_for_context_store owner L (after_init s)) as Hst.
  rewrite after_init_idem in Hst.
  destruct (format_memory_for_context owner L (after_init s))
    as [context st|e st] eqn:Hf.
  - exists context. simpl in Hst, Hctx. subst st. split; [|split].
    + unfold get_memory_tool, bind. fold L.
      rewrite get_recent_conversations_eq. fold (turns_of owner s).
      rewrite Hf, Hfetch, length_map, length_lastn. reflexivity.
    + unfold k. lia.
    + rewrite <- Hctx. split; [intros ->; reflexivity|congruence].
  - exfalso. unfold format_memory_for_context, bind in Hf.
    rewrite get_recent_conversations_eq in Hf.
    destruct (map conversation_of _) in Hf; discriminate Hf.
Qed.

Lemma get_memory_result_witness :
  exists context,
    get_memory_tool "a" 3 sample_turns
    = Returns
        (mk_memory_result "success"
           [ mk_conversation 4 "q3" "r3" (Some "s") "t4";
             mk_conversation 6 "q4" "r4" None "t6";
             mk_conversation 7 "q5" "r5" None "t7" ]
           3 context)
        (after_init sample_turns).
Proof.
  destruct (get_memory_result sample_turns "a" 3) as (context & H & _).
  - reflexivity.
  - exists context. exact H.
Defined.

(** ** Journals *)

Lemma filter_all {A : Type} (p : A -> bool) (l : list A) :
  (forall x, p x = true) -> filter p l = l.
Proof.
  intros Hp. induction l as [|x l IH]; simpl; [reflexivity|].
  now rewrite Hp, IH.
Qed.

(** X7. The empty search term matches every entry: [search_journals] with
    the empty term gives what [list_journals] gives with the same limit. *)
Theorem search_empty_term_lists_all (s : store) (limit : Z) :
  search_journals EmptyString limit s = list_journals limit s.
Proof.
  rewrite search_journals_eq, list_journals_eq.
  rewrite filter_all; [reflexivity|].
  intros r. unfold search_where. simpl append.
  rewrite like_percent_unfold, like_percent_any. reflexivity.
Qed.

(** X8. On a well-formed file, [save_journal] followed by [list_journals 1]
    returns the entry just saved alone, with its agent and text as given and
    a tags column that decodes to the tags given, absent tags included. *)
Theorem journal_round_trip (s : store) (agent entry : string)
    (tags : option (list string)) (now : timestamp) :
  wf_store s = true ->
  exists row s',
    (save_journal agent entry tags now ;;; list_journals 1) s
    = Returns [row] s'
    /\ j_agent row = agent
    /\ j_entry row = entry
    /\ j_created_at row = now
    /\ json_loads (j_tags row) = Some tags.
Proof.
  intros Hwf. apply wf_store_tables in Hwf as (Hj & _ & _).
  unfold bind. rewrite save_journal_eq, list_journals_eq.
  cbn [journals rows_of].
  rewrite (newest_row_first j_id) by (auto || exact Hj).
  eexists. eexists. split; [reflexivity|].
  repeat (split; [reflexivity|]). apply json_loads_dumps.
Qed.

Lemma journal_round_trip_witness :
  exists row s',
    (save_journal "z" "note" (Some ["a,b"; "c"]) "t4" ;;; list_journals 1)
      sample_project
    = Returns [row] s'
    /\ j_agent row = "z"
    /\ j_entry row = "note"
    /\ j_created_at row = "t4"
    /\ json_loads (j_tags row) = Some (Some ["a,b"; "c"]).
Proof.
  apply (journal_round_trip sample_project "z" "note" (Some ["a,b"; "c"]) "t4").
  reflexivity.
Defined.

(* ================================================================= *)
(** * Further properties of the tool functions *)

(** ** Splitting at a separator *)

Lemma py_split_cons (sep : ascii) (s : string) :
  exists h t, py_split sep s = h :: t.
Proof.
  induction s as [|c r IH]; simpl.
  - eexists. eexists. reflexivity.
  - destruct (c =? sep)%char; [eexists; eexists; reflexivity|].
    destruct IH as (h & t & ->). eexists. eexists. reflexivity.
Qed.

Lemma py_split_join (sep : ascii) (s : string) :
  py_join (String sep EmptyString) (py_split sep s) = s.
Proof.
  unfold py_join. induction s as [|c r IH]; [reflexivity|].
  change (py_split sep (String c r))
    with (if (c =? sep)%char then EmptyString :: py_split sep r
          else match py_split sep r with
               | h :: t => String c h :: t
               | [] => [String c EmptyString]
               end).
  destruct (py_split_cons sep r) as (h & t & Hsplit).
  rewrite Hsplit in *.
  destruct (Ascii.eqb_spec c sep) as [->|Hne].
  - change (concat (String sep EmptyString) (EmptyString :: h :: t))
      with (String sep (concat (String sep EmptyString) (h :: t))).
    now rewrite IH.
  - rewrite <- IH. destruct t; reflexivity.
Qed.

Lemma py_split_length (sep : ascii) (s : string) :
  List.length (py_split sep s) = S (count_char sep s).
Proof.
  induction s as [|c r IH]; [reflexivity|]. simpl.
  destruct (c =? sep)%char; simpl; [now rewrite IH|].
  destruct (py_split_cons sep r) as (h & t & Hsplit).
  rewrite Hsplit in *. exact IH.
Qed.

Lemma count_char_lstrip (c : ascii) (s : string) :
  py_isspace c = false -> count_char c (py_lstrip s) = count_char c s.
Proof.
  intros Hc. induction s as [|d r IH]; [reflexivity|]. simpl.
  destruct (py_isspace d) eqn:Hd; [|reflexivity].
  destruct (Ascii.eqb_spec d c) as [->|_]; [congruence|exact IH].
Qed.

Lemma count_char_rstrip (c : ascii) (s : string) :
  py_isspace c = false -> count_char c (py_rstrip s) = count_char c s.
Proof.
  intros Hc. induction s as [|d r IH]; [reflexivity|]. simpl.
  destruct (py_rstrip r) as [|e r'] eqn:Hr.
  - simpl in IH. rewrite <- IH.
    destruct (py_isspace d) eqn:Hd; simpl.
    + destruct (Ascii.eqb_spec d c) as [->|_]; [congruence|reflexivity].
    + reflexivity.
  - simpl in *. now rewrite IH.
Qed.

Lemma count_char_strip (c : ascii) (s : string) :
  py_isspace c = false -> count_char c (py_strip s) = count_char c s.
Proof.
  intros Hc. unfold py_strip.
  now rewrite count_char_rstrip, count_char_lstrip.
Qed.

Lemma is_substring_char (c : ascii) (s : string) :
  is_substring (String c EmptyString) s = negb (count_char c s =? 0)%nat.
Proof.
  induction s as [|d r IH]; [reflexivity|].
  simpl. destruct (ascii_dec c d) as [->|Hne].
  - rewrite Ascii.eqb_refl. destruct r; reflexivity.
  - apply not_eq_sym in Hne. apply Ascii.eqb_neq in Hne. rewrite Hne.
    simpl. exact IH.
Qed.

(** ** Fields of a generated model *)

Lemma field_parts (field : string) :
  List.length (py_split ":" (py_strip field)) = S (count_char ":" field).
Proof. rewrite py_split_length, count_char_strip; reflexivity. Qed.

Lemma model_fields_step (field : string) (rest : list string)
    (model_code : string) (s : store) :
  (count_char ":" field = 0%nat ->
   model_fields (field :: rest) model_code s = model_fields rest model_code s)
  /\ (count_char ":" field = 1%nat ->
      exists line,
        model_fields (field :: rest) model_code s
        = model_fields rest (model_code ++ line) s)
  /\ ((2 <= count_char ":" field)%nat ->
      model_fields (field :: rest) model_code s = Raises too_many s).
Proof.
  pose proof (field_parts field) as Hparts.
  pose proof (is_substring_char ":" field) as Hin.
  split; [|split]; intros Hcount; simpl model_fields; rewrite Hin.
  - rewrite Hcount. reflexivity.
  - rewrite Hcount. simpl negb. cbv iota.
    rewrite Hcount in Hparts.
    destruct (py_split ":" (py_strip field)) as [|a [|b [|c l]]];
      try discriminate Hparts.
    eexists. reflexivity.
  - destruct (count_char ":" field) as [|[|n]] eqn:Hc; try lia.
    simpl negb. cbv iota.
    destruct (py_split ":" (py_strip field)) as [|a [|b [|c l]]];
      try discriminate Hparts.
    reflexivity.
Qed.

Lemma model_fields_returns (fields : list string) :
  Forall (fun f => (count_char ":" f <= 1)%nat) fields ->
  forall model_code s,
    exists body, model_fields fields model_code s = Returns body s.
Proof.
  induction 1 as [|f l Hf _ IH]; intros model_code s.
  - eexists. reflexivity.
  - destruct (model_fields_step f l model_code s) as (H0 & H1 & _).
    destruct (count_char ":" f) as [|[|n]] eqn:Hc; try lia.
    + rewrite H0 by reflexivity. apply IH.
    + destruct H1 as [line ->]; [reflexivity|]. apply IH.
Qed.

Lemma model_fields_raises (fields : list string) :
  Exists (fun f => (2 <= count_char ":" f)%nat) fields ->
  forall model_code s, model_fields fields model_code s = Raises too_many s.
Proof.
  induction fields as [|f l IH]; intros Hex model_code s.
  - inversion Hex.
  - destruct (model_fields_step f l model_code s) as (H0 & H1 & H2).
    destruct (count_char ":" f) as [|[|n]] eqn:Hc.
    + rewrite H0 by reflexivity. apply IH.
      inversion Hex; subst; [lia|assumption].
    + destruct H1 as [line ->]; [reflexivity|]. apply IH.
      inversion Hex; subst; [lia|assumption].
    + apply H2. lia.
Qed.

(** X9. [generate_django_model] raises exactly on a field with more than
    one colon.  If some comma-separated field has two colons or more, the
    call raises ValueError and leaves the file as it was, with no journal
    entry written; if every field has at most one colon, the call returns
    the status success and the model code, and appends one journal entry of
    coding_agent that names the model. *)
Theorem django_model_colon_fields (model_name fields description : string)
    (now : timestamp) (s : store) :
  (Exists (fun f => (2 <= count_char ":" f)%nat) (py_split "," fields) ->
   generate_django_model model_name fields description now s
   = Raises too_many s)
  /\ (Forall (fun f => (count_char ":" f <= 1)%nat) (py_split "," fields) ->
      exists model_code s' id,
        generate_django_model model_name fields description now s
        = Returns [("status", PyStr "success");
                   ("model_code", PyStr model_code);
                   ("description", PyStr description)] s'
        /\ rows_of (journals s')
           = rows_of (journals s)
             ++ [mk_journal id "coding_agent"
                   ("Generated Django model: " ++ model_name)
                   (json_dumps (Some ["django"; "model"; "code"])) now]).
Proof.
  split; intros Hfields; unfold generate_django_model, bind.
  - now rewrite model_fields_raises.
  - edestruct (model_fields_returns _ Hfields) as [body ->].
    rewrite save_journal_eq. eexists. eexists.
    exists (seq (match journals s with
                 | Some t => t
                 | None => empty_table
                 end) + 1).
    split; [reflexivity|].
    cbn [journals rows_of]. destruct (journals s); reflexivity.
Qed.

Lemma django_model_colon_fields_witness :
  generate_django_model "Post" "title:CharField,x::y" "d" "t4" sample_project
  = Raises too_many sample_project
  /\ exists model_code s' id,
       generate_django_model "Post" "title:CharField, body:TextField,x" "d"
         "t4" sample_project
       = Returns [("status", PyStr "success");
                  ("model_code", PyStr model_code);
                  ("description", PyStr "d")] s'
       /\ rows_of (journals s')
          = rows_of (journals sample_project)
            ++ [mk_journal id "coding_agent" "Generated Django model: Post"
                  (json_dumps (Some ["django"; "model"; "code"])) "t4"].
Proof.
  split.
  - apply (django_model_colon_fields "Post" "title:CharField,x::y" "d" "t4"
             sample_project).
    right. left. simpl. lia.
  - apply (django_model_colon_fields "Post"
             "title:CharField, body:TextField,x" "d" "t4" sample_project).
    repeat constructor.
Defined.

(** ** Tags of the entries that the tools store *)

(** X10. [journal] of the learning coach returns the status saved and
    appends one entry of learning_coach with the text given.  With empty
    tags the tags column is null; otherwise it decodes to the parts of the
    tags between the commas, which joined by commas are the tags again. *)
Theorem journal_tool_tags (entry tags : string) (now : timestamp) (s : store) :
  exists s' row,
    journal entry tags now s
    = Returns [("status", PyStr "saved"); ("entry", PyStr entry)] s'
    /\ rows_of (journals s') = rows_of (journals s) ++ [row]
    /\ j_agent row = "learning_coach"
    /\ j_entry row = entry
    /\ (tags = EmptyString -> j_tags row = "null")
    /\ (tags <> EmptyString ->
        exists parts,
          json_loads (j_tags row) = Some (Some parts)
          /\ py_join "," parts = tags
          /\ List.length parts = S (count_char "," tags)).
Proof.
  unfold journal, bind. rewrite save_journal_eq.
  eexists.
  exists (mk_journal
            (seq (match journals s with
                  | Some t => t
                  | None => empty_table
                  end) + 1)
            "learning_coach" entry
            (json_dumps (if (tags =? EmptyString)%string then None
                         else Some (py_split "," tags))) now).
  split; [reflexivity|].
  cbn [journals rows_of]. split.
  { destruct (journals s); reflexivity. }
  cbn [j_agent j_entry j_tags].
  split; [reflexivity|]. split; [reflexivity|]. split.
  - intros ->. reflexivity.
  - intros Hne. apply String.eqb_neq in Hne. rewrite Hne.
    exists (py_split "," tags). split; [apply json_loads_dumps|].
    split; [apply py_split_join|apply py_split_length].
Qed.


(** ** The coding history *)

Lemma firstn_succ {A : Type} (k : nat) (l : list A) :
  firstn (S k) l = firstn k l ++ firstn 1 (skipn k l).
Proof.
  revert l. induction k as [|k IH]; intros l; [reflexivity|].
  destruct l as [|x l]; [reflexivity|].
  change (firstn (S (S k)) (x :: l)) with (x :: firstn (S k) l).
  rewrite IH. reflexivity.
Qed.

(** Filtering what a bound lets through gives a part of what the bound lets
    through of the filtered rows. *)
Lemma filter_firstn_prefix {A : Type} (p : A -> bool) (k : nat) (l : list A) :
  exists more, firstn k (filter p l) = filter p (firstn k l) ++ more.
Proof.
  revert l. induction k as [|k IH]; intros l.
  - exists []. reflexivity.
  - destruct l as [|x l]; [exists []; reflexivity|].
    destruct (IH l) as [more Hmore].
    change (firstn (S k) (x :: l)) with (x :: firstn k l).
    cbn [filter]. destruct (p x).
    + exists more. cbn [firstn]. now rewrite Hmore.
    + rewrite firstn_succ, Hmore, <- app_assoc. eexists. reflexivity.
Qed.

Lemma get_coding_history_eq (limit : Z) (s : store) :
  get_coding_history limit s
  = Returns
      (history_record
         (filter is_coding_row
            (sql_limit (Z.max 1 (Z.min 50 limit))
               (order_by_desc j_id (rows_of (journals s))))))
      (after_init s).
Proof.
  unfold get_coding_history, bind. rewrite list_journals_eq. reflexivity.
Qed.

(** X12. [get_coding_history] applies the clamped limit before it keeps the
    entries of coding_agent: its entries are exactly the entries of
    coding_agent among the newest stored entries that the clamped limit
    lets through, newest first.  It returns the status success and a count
    equal to the number of entries, at most the clamped limit and so at
    most 50; and the entries are the first part of what
    [get_journals_by_agent] returns for coding_agent with the same limit,
    which may hold more. *)
Theorem coding_history_window (s : store) (limit : Z) :
  wf_store s = true ->
  let bound := Z.max 1 (Z.min 50 limit) in
  exists found more,
    get_coding_history limit s = Returns (history_record found) (after_init s)
    /\ found
       = filter is_coding_row
           (rev (lastn (Z.to_nat bound) (rows_of (journals s))))
    /\ (List.length found <= Z.to_nat bound <= 50)%nat
    /\ Forall (fun r => In r (rows_of (journals s))
                        /\ j_agent r = "coding_agent") found
    /\ strictly_decreasing (map j_id found) = true
    /\ value_of (get_journals_by_agent "coding_agent" bound s)
       = Some (found ++ more).
Proof.
  intros Hwf bound.
  assert (Hb : 1 <= bound <= 50) by (unfold bound; lia).
  pose proof (journal_ids s Hwf is_coding_row) as [hi1 Hmine].
  apply wf_store_tables in Hwf as (Hj & _ & _).
  apply wf_table_ids in Hj as [hi Hj].
  set (stored := rows_of (journals s)) in *.
  set (found := filter is_coding_row (sql_limit bound (rev stored))).
  assert (Hlim : sql_limit bound (rev stored)
                 = firstn (Z.to_nat bound) (rev stored)).
  { unfold sql_limit. destruct (Z.ltb_spec bound 0); [lia|reflexivity]. }
  destruct (filter_firstn_prefix is_coding_row (Z.to_nat bound) (rev stored))
    as [more Hmore].
  exists found, more. split; [|split; [|split; [|split; [|split]]]].
  - rewrite get_coding_history_eq. fold bound stored.
    now rewrite (order_by_desc_rev j_id _ _ _ Hj).
  - unfold found. now rewrite Hlim, firstn_rev_lastn.
  - split; [|lia]. unfold found. rewrite Hlim.
    etransitivity; [apply filter_length_le|].
    rewrite length_firstn. lia.
  - apply Forall_forall. intros r Hr. unfold found in Hr.
    apply filter_In in Hr as [Hr Hagent].
    apply in_sql_limit in Hr. apply in_rev in Hr.
    split; [exact Hr|]. now apply String.eqb_eq.
  - unfold found. rewrite Hlim.
    assert (Hd : strictly_decreasing
                   (map j_id (firstn (Z.to_nat bound)
                                (filter is_coding_row (rev stored)))) = true).
    { rewrite <- firstn_map. apply strictly_decreasing_firstn.
      rewrite filter_rev. eapply strictly_decreasing_rev; exact Hmine. }
    rewrite Hmore, map_app in Hd.
    clear - Hd. revert Hd.
    generalize (map j_id (filter is_coding_row
                            (firstn (Z.to_nat bound) (rev stored)))).
    generalize (map j_id more). intros tl hd.
    induction hd as [|i [|j hd] IH]; intros H; try reflexivity.
    change ((i :: j :: hd) ++ tl) with (i :: j :: (hd ++ tl)) in H.
    rewrite strictly_decreasing_cons in *.
    apply andb_true_iff in H as [H1 H2]. rewrite H1. now apply IH.
  - rewrite get_journals_by_agent_eq. fold stored. simpl value_of. f_equal.
    change (fun r => (j_agent r =? "coding_agent")%string) with is_coding_row.
    rewrite (order_by_desc_rev j_id _ _ _ Hmine), <- filter_rev.
    unfold sql_limit at 1. destruct (Z.ltb_spec bound 0); [lia|].
    rewrite Hmore. unfold found. now rewrite Hlim.
Qed.

Lemma coding_history_window_witness :
  exists found more,
    get_coding_history 2 sample_project
    = Returns (history_record found) (after_init sample_project)
    /\ found = []
    /\ value_of (get_journals_by_agent "coding_agent" 2 sample_project)
       = Some (found ++ more)
    /\ map j_id more = [1].
Proof.
  destruct (coding_history_window sample_project 2)
    as (found & more & H1 & Hfound & _ & _ & _ & H2); [reflexivity|].
  exists found, more. split; [exact H1|].
  assert (Hnil : found = []) by (rewrite Hfound; reflexivity).
  split; [exact Hnil|]. split; [exact H2|].
  rewrite Hnil in H2. simpl in H2. injection H2 as <-. reflexivity.
Defined.

(** ** The questions of a quiz *)

Lemma nth_error_range (n : Z) (i : nat) :
  (i < Z.to_nat n)%nat -> nth_error (py_range n) i = Some (Z.of_nat i).
Proof.
  intros Hi. unfold py_range.
  rewrite nth_error_map, nth_error_seq.
  destruct (Nat.ltb_spec i (Z.to_nat n)); [reflexivity|lia].
Qed.

(** X13. [generate_quiz] returns the status success and a list of questions
    whose length is 3 when the requested number is below 1, the requested
    number up to 10, and 10 above; so between 1 and 10 in every case.  The
    questions are numbered from 1 in order. *)
Theorem quiz_has_clamped_size (topic : string) (num_questions : Z) :
  let k := Z.to_nat (if num_questions <? 1 then 3 else Z.min 10 num_questions) in
  exists questions,
    generate_quiz topic num_questions
    = [("status", OStr "success"); ("quiz", OList (map OStr questions))]
    /\ List.length questions = k
    /\ (1 <= k <= 10)%nat
    /\ forall i, (i < k)%nat ->
         nth_error questions i
         = Some ("Q" ++ py_str_int (Z.of_nat i + 1)
                 ++ ". Brief question about " ++ topic
                 ++ " (short answer)")%string.
Proof.
  intros k. exists (quiz_questions topic num_questions).
  assert (Hk : Z.max 1
                 (Z.min 10
                    (if (num_questions =? 0) || (num_questions <? 1)
                     then 3 else num_questions))
               = (if num_questions <? 1 then 3 else Z.min 10 num_questions)).
  { destruct (Z.ltb_spec num_questions 1), (Z.eqb_spec num_questions 0);
      simpl; lia. }
  split; [reflexivity|]. split; [|split].
  - unfold quiz_questions, py_range.
    rewrite !length_map, length_seq, Hk. reflexivity.
  - unfold k. destruct (Z.ltb_spec num_questions 1); lia.
  - intros i Hi. unfold quiz_questions. rewrite Hk.
    rewrite nth_error_map, nth_error_range by exact Hi. reflexivity.
Qed.

(** ** Tasks and their status updates *)

Lemma digits_without (c : ascii) (d : Decimal.uint) :
  (code c <? 48)%N || (57 <? code c)%N = true ->
  count_char c (NilEmpty.string_of_uint d) = 0%nat.
Proof.
  intros Hc.
  induction d; cbn [count_char NilEmpty.string_of_uint]; try reflexivity;
    rewrite IHd;
    match goal with
    | |- context [(?x =? c)%char] =>
        destruct (Ascii.eqb_spec x c) as [<-|_]; [discriminate Hc|reflexivity]
    end.
Qed.

Lemma py_str_int_no_T (n : Z) : count_char "T" (py_str_int n) = 0%nat.
Proof.
  unfold py_str_int, NilZero.string_of_int, NilZero.string_of_uint.
  destruct (Z.to_int n) as [d|d]; destruct d; simpl; try reflexivity;
    apply (digits_without "T"); reflexivity.
Qed.

Lemma task_mark_skip (pre rest : string) :
  count_char "T" pre = 0%nat ->
  is_substring "TASK:" (pre ++ rest) = is_substring "TASK:" rest.
Proof.
  induction pre as [|c pre IH]; intros Hc; [reflexivity|].
  simpl in Hc. destruct (Ascii.eqb_spec c "T") as [->|Hne]; [discriminate Hc|].
  change (String c pre ++ rest)%string with (String c (pre ++ rest)).
  change (is_substring "TASK:" (String c (pre ++ rest)))
    with (prefix "TASK:" (String c (pre ++ rest))
          || is_substring "TASK:" (pre ++ rest)).
  rewrite IH by exact Hc.
  cbn [prefix]. destruct (ascii_dec "T" c) as [Heq|_]; [congruence|].
  reflexivity.
Qed.

(** The text of a status update holds the mark of a task only when the new
    status holds it. *)
Lemma status_update_mark (task_id : Z) (new_status : string) :
  is_substring "TASK:" (status_update task_id new_status)
  = is_substring "TASK:" new_status.
Proof.
  unfold status_update.
  change ("TASK_UPDATE: Task ID " ++ py_str_int task_id
          ++ " status changed to " ++ new_status)%string
    with ("TASK_UPDA"
          ++ ("TE: "
              ++ ("Task ID "
                  ++ (py_str_int task_id
                      ++ (" status changed to " ++ new_status)))))%string.
  remember (py_str_int task_id ++ " status changed to " ++ new_status)%string
    as tail.
  assert (H1 : is_substring "TASK:" ("TASK_UPDA" ++ "TE: " ++ "Task ID " ++ tail)
               = is_substring "TASK:" tail) by reflexivity.
  rewrite H1. subst tail.
  rewrite task_mark_skip by apply py_str_int_no_T.
  apply (task_mark_skip " status changed to "). reflexivity.
Qed.

Lemma list_tasks_eq (status : string) (limit : Z) (s : store) :
  list_tasks status limit s
  = Returns
      (tasks_record status
         (task_rows status
            (sql_limit (Z.max 1 (Z.min 100 limit))
               (order_by_desc j_id (rows_of (journals s))))))
      (after_init s).
Proof. unfold list_tasks, bind. rewrite list_journals_eq. reflexivity. Qed.

Lemma newest_first_after_save agent entry tags now s :
  wf_store s = true ->
  exists id,
    rows_of (journals (final_store (save_journal agent entry tags now s)))
    = rows_of (journals s) ++ [mk_journal id agent entry (json_dumps tags) now]
    /\ order_by_desc j_id
         (rows_of (journals (final_store (save_journal agent entry tags now s))))
       = mk_journal id agent entry (json_dumps tags) now
           :: rev (rows_of (journals s)).
Proof.
  intros Hwf.
  assert (Hwf' : wf_store (final_store (save_journal agent entry tags now s))
                 = true).
  { eapply effect_wf; [apply effect_journal|exact Hwf]. }
  apply wf_store_tables in Hwf' as (Hj & _ & _).
  apply wf_table_ids in Hj as [hi Hj].
  rewrite (order_by_desc_rev j_id _ _ _ Hj).
  rewrite journals_after_save. eexists. split; [reflexivity|].
  now rewrite rev_app_distr.
Qed.

Lemma sql_limit_cons {R : Type} (n : Z) (x : R) (l : list R) :
  1 <= n -> sql_limit n (x :: l) = x :: firstn (Z.to_nat n - 1) l.
Proof.
  intros Hn. unfold sql_limit. destruct (Z.ltb_spec n 0); [lia|].
  destruct (Z.to_nat n) as [|k] eqn:Hk; [lia|].
  simpl. now rewrite Nat.sub_0_r.
Qed.

(** X14. A status update is not a task and changes none.  For a new status
    that does not hold the mark of a task, [update_task_status] returns its
    mapping with the status success and appends one entry of
    project_manager, whose text names the task id and the new status and
    whose tags are task, update and the new status; no stored entry is
    changed.  The tasks that [list_tasks] reports afterwards are those it
    reported before, in the same order and with their stored text, except
    that the new entry takes one place of the window, so the oldest row of
    the window may drop out; nothing drops out when the stored entries are
    fewer than the clamped limit. *)
Theorem status_update_keeps_tasks (s : store) (task_id : Z)
    (new_status : string) (now : timestamp) (status : string) (limit : Z) :
  wf_store s = true ->
  is_substring "TASK:" new_status = false ->
  let s' := final_store (update_task_status task_id new_status now s) in
  let k := (Z.to_nat (Z.max 1 (Z.min 100 limit)) - 1)%nat in
  let newest := rev (rows_of (journals s)) in
  exists row,
    update_task_status task_id new_status now s
    = Returns
        [("status", OStr "success");
         ("message",
          OStr ("Task " ++ py_str_int task_id ++ " status updated to "
                ++ new_status));
         ("task_id", OInt task_id);
         ("new_status", OStr new_status)] s'
    /\ rows_of (journals s') = rows_of (journals s) ++ [row]
    /\ j_agent row = "project_manager"
    /\ j_entry row = status_update task_id new_status
    /\ json_loads (j_tags row) = Some (Some ["task"; "update"; new_status])
    /\ j_created_at row = now
    /\ is_task_row row = false
    /\ value_of (list_tasks status limit s)
       = Some (tasks_record status
                 (task_rows status (firstn k newest)
                  ++ task_rows status (firstn 1 (skipn k newest))))
    /\ value_of (list_tasks status limit s')
       = Some (tasks_record status (task_rows status (firstn k newest)))
    /\ (Z.of_nat (List.length (rows_of (journals s)))
        < Z.max 1 (Z.min 100 limit) ->
        task_rows status (firstn 1 (skipn k newest)) = []).
Proof.
  intros Hwf Hmark s' k newest.
  set (L := Z.max 1 (Z.min 100 limit)) in *.
  assert (HL : 1 <= L) by (unfold L; lia).
  set (stored := rows_of (journals s)) in *.
  assert (Hs' : s' = final_store
                       (save_journal "project_manager"
                          (status_update task_id new_status)
                          (Some ["task"; "update"; new_status]) now s)).
  { unfold s', update_task_status, bind. rewrite save_journal_eq.
    reflexivity. }
  destruct (newest_first_after_save "project_manager"
              (status_update task_id new_status)
              (Some ["task"; "update"; new_status]) now s Hwf)
    as (id & Hrows & Hnew).
  rewrite <- Hs' in Hnew, Hrows. fold stored in Hnew, Hrows.
  apply wf_store_tables in Hwf as (Hj & _ & _).
  apply wf_table_ids in Hj as [hi Hj]. fold stored in Hj.
  set (row := mk_journal id "project_manager"
                (status_update task_id new_status)
                (json_dumps (Some ["task"; "update"; new_status])) now) in *.
  assert (Hrow : is_task_row row = false).
  { unfold is_task_row. cbn [row j_agent j_entry].
    rewrite status_update_mark, Hmark. apply andb_false_r. }
  exists row.
  split; [|split; [|split; [|split; [|split; [|split; [|split; [|split;
    [|split]]]]]]]]; try reflexivity.
  - unfold s', update_task_status, bind. rewrite save_journal_eq.
    reflexivity.
  - exact Hrows.
  - apply json_loads_dumps.
  - exact Hrow.
  - rewrite list_tasks_eq. fold L stored.
    rewrite (order_by_desc_rev j_id _ _ _ Hj). fold newest.
    unfold sql_limit. destruct (Z.ltb_spec L 0); [lia|].
    replace (Z.to_nat L) with (S k) by (unfold k; lia).
    rewrite firstn_succ. unfold task_rows. now rewrite filter_app.
  - rewrite list_tasks_eq. fold L. rewrite Hnew, sql_limit_cons by exact HL.
    fold k newest. unfold task_rows at 1. cbn [filter].
    rewrite Hrow. reflexivity.
  - intros Hfew. rewrite skipn_all2; [reflexivity|].
    unfold newest. rewrite length_rev. unfold k. lia.
Qed.

Lemma status_update_keeps_tasks_witness :
  exists row,
    rows_of (journals
               (final_store
                  (update_task_status 2 "completed" "t4" sample_project)))
    = rows_of (journals sample_project) ++ [row]
    /\ j_entry row = "TASK_UPDATE: Task ID 2 status changed to completed"
    /\ value_of (list_tasks "all" 20
                   (final_store
                      (update_task_status 2 "completed" "t4" sample_project)))
       = value_of (list_tasks "all" 20 sample_project)
    /\ option_map (record_get "count")
         (value_of (list_tasks "all" 20 sample_project))
       = Some (Some (OInt 1)).
Proof.
  destruct (status_update_keeps_tasks sample_project 2 "completed" "t4"
              "all" 20)
    as (row & _ & Hrows & _ & Hentry & _ & _ & _ & H1 & H2 & H3).
  - reflexivity.
  - reflexivity.
  - exists row. split; [exact Hrows|]. split; [exact Hentry|].
    rewrite H3 in H1 by (simpl; lia).
    rewrite app_nil_r in H1. rewrite H1, H2. split; reflexivity.
Defined.

Lemma is_substring_app_r (t a b : string) :
  is_substring t b = true -> is_substring t (a ++ b) = true.
Proof.
  intros H. induction a as [|c a IH]; [exact H|].
  change (String c a ++ b)%string with (String c (a ++ b)).
  change (is_substring t (String c (a ++ b)))
    with (prefix t (String c (a ++ b)) || is_substring t (a ++ b)).
  rewrite IH. apply orb_true_r.
Qed.

Lemma py_lower_app (a b : string) :
  py_lower (a ++ b) = (py_lower a ++ py_lower b)%string.
Proof. induction a as [|c a IH]; simpl; [reflexivity|now rewrite IH]. Qed.

Lemma task_entry_is_pending (task_description due_date priority : string) :
  is_substring "TASK:" (task_entry task_description due_date priority) = true
  /\ is_substring "pending"
       (py_lower (task_entry task_description due_date priority)) = true.
Proof.
  split; [reflexivity|].
  unfold task_entry. rewrite !py_lower_app.
  repeat apply is_substring_app_r. reflexivity.
Qed.

(** X15. A task just added is the first task that [list_tasks] reports, for
    the filter all and for the filter pending in any letter case: every
    task is stored with the status pending in its text.  The entry is one of
    project_manager and holds the description, due date and priority. *)
Theorem added_task_is_listed (s : store)
    (task_description due_date priority tags created : string)
    (now : timestamp) (status : string) (limit : Z) :
  wf_store s = true ->
  status = "all" \/ py_lower status = "pending" ->
  exists row others s',
    (add_task task_description due_date priority tags created now ;;;
     list_tasks status limit) s
    = Returns (tasks_record status (row :: others)) s'
    /\ j_agent row = "project_manager"
    /\ j_entry row = task_entry task_description due_date priority
    /\ j_created_at row = now.
Proof.
  intros Hwf Hstatus.
  set (tag_list := extend_tags tags ["task"; py_lower priority]).
  set (entry := task_entry task_description due_date priority).
  destruct (newest_first_after_save "project_manager" entry (Some tag_list)
              now s Hwf) as (id & _ & Hnew).
  set (row := mk_journal id "project_manager" entry
                (json_dumps (Some tag_list)) now) in *.
  assert (Hrow : is_task_row row && status_filter status row = true).
  { destruct (task_entry_is_pending task_description due_date priority)
      as [Hmark Hpending].
    unfold is_task_row, status_filter. cbn [row j_agent j_entry].
    fold entry in Hmark, Hpending.
    rewrite Hmark, String.eqb_refl. cbn [andb].
    destruct Hstatus as [->|Hlow]; [reflexivity|].
    rewrite Hlow, Hpending. apply orb_true_r. }
  exists row.
  exists (task_rows status
            (firstn (Z.to_nat (Z.max 1 (Z.min 100 limit)) - 1)
               (rev (rows_of (journals s))))).
  eexists. split; [|repeat split; reflexivity].
  unfold add_task, bind at 1. fold tag_list entry.
  unfold bind at 1. rewrite save_journal_eq. unfold ret at 1.
  rewrite list_tasks_eq.
  rewrite save_journal_eq in Hnew. cbn [final_store] in Hnew.
  rewrite Hnew, sql_limit_cons by lia.
  unfold task_rows at 1. cbn [filter]. rewrite Hrow. reflexivity.
Qed.

Lemma added_task_is_listed_witness :
  exists row others s',
    (add_task "ship it" "Monday" "High" "ops,release" "2026-01-05T10:00:00"
       "t4" ;;; list_tasks "Pending" 5) sample_project
    = Returns (tasks_record "Pending" (row :: others)) s'
    /\ j_agent row = "project_manager"
    /\ j_entry row = task_entry "ship it" "Monday" "High"
    /\ j_created_at row = "t4".
Proof.
  apply (added_task_is_listed sample_project "ship it" "Monday" "High"
           "ops,release" "2026-01-05T10:00:00" "t4" "Pending" 5).
  - reflexivity.
  - right. reflexivity.
Defined.

(** ** The project summary *)

Lemma get_project_summary_eq (days_back : Z) (s : store) :
  get_project_summary days_back s
  = Returns
      (summary_record days_back
         (filter is_pm_row
            (sql_limit (days_back * 10)
               (order_by_desc j_id (rows_of (journals s))))))
      (after_init s).
Proof.
  unfold get_project_summary, bind. rewrite list_journals_eq. reflexivity.
Qed.

(** X16. [get_project_summary] reads the newest ten entries per day asked
    for and keeps those of project_manager; the number of days times ten is
    bound as a limit and has to fit a signed 64-bit integer.  For a number
    of days that is not negative it summarises exactly the entries of
    project_manager among the newest ten times that many stored entries,
    newest first, so nothing for zero days, whatever is stored; for a
    negative number of days the limit is negative and it summarises every
    stored entry of project_manager.  Each of the four counts is at most the
    total, and the entries listed as recent activity are the first ten. *)
Theorem project_summary_window (s : store) (days_back : Z) :
  wf_store s = true ->
  fits_int64 (days_back * 10) = true ->
  let stored := rows_of (journals s) in
  exists pm_entries,
    get_project_summary days_back s
    = Returns (summary_record days_back pm_entries) (after_init s)
    /\ pm_entries
       = filter is_pm_row
           (if days_back <? 0 then rev stored
            else rev (lastn (Z.to_nat (days_back * 10)) stored))
    /\ (days_back = 0 -> pm_entries = [])
    /\ (days_back < 0 -> pm_entries = rev (filter is_pm_row stored))
    /\ (0 < days_back ->
        Z.of_nat (List.length pm_entries) <= 10 * days_back)
    /\ (Z.of_nat (List.length stored) <= days_back * 10 ->
        pm_entries = rev (filter is_pm_row stored))
    /\ Forall (fun r => In r stored /\ j_agent r = "project_manager")
         pm_entries
    /\ (forall mark,
          0 <= count_marked mark pm_entries
          <= Z.of_nat (List.length pm_entries))
    /\ (List.length (firstn 10 pm_entries) <= 10)%nat.
Proof.
  intros Hwf _ stored.
  apply wf_store_tables in Hwf as (Hj & _ & _).
  apply wf_table_ids in Hj as [hi Hj]. fold stored in Hj.
  exists (filter is_pm_row (sql_limit (days_back * 10) (rev stored))).
  split; [|split; [|split; [|split; [|split; [|split; [|split; [|split]]]]]]].
  - rewrite get_project_summary_eq. fold stored.
    now rewrite (order_by_desc_rev j_id _ _ _ Hj).
  - unfold sql_limit.
    destruct (Z.ltb_spec (days_back * 10) 0), (Z.ltb_spec days_back 0);
      try lia; [reflexivity|].
    now rewrite firstn_rev_lastn.
  - intros ->. reflexivity.
  - intros Hneg. rewrite sql_limit_all by (left; lia). apply filter_rev.
  - intros Hpos.
    pose proof (filter_length_le is_pm_row
                  (sql_limit (days_back * 10) (rev stored))) as Hle.
    rewrite sql_limit_length in Hle by lia. lia.
  - intros Hall. rewrite sql_limit_all by (right; rewrite length_rev; lia).
    apply filter_rev.
  - apply Forall_forall. intros r Hr.
    apply filter_In in Hr as [Hr Hagent].
    apply in_sql_limit in Hr. apply in_rev in Hr.
    split; [exact Hr|]. now apply String.eqb_eq.
  - intros mark. unfold count_marked.
    match goal with |- context [filter ?p ?l] =>
      pose proof (filter_length_le p l) end.
    lia.
  - rewrite length_firstn. lia.
Qed.

Lemma project_summary_window_witness :
  exists pm_entries,
    get_project_summary 1 sample_project
    = Returns (summary_record 1 pm_entries) (after_init sample_project)
    /\ map j_id pm_entries = [2]
    /\ record_get "summary" (summary_record 1 pm_entries)
       = Some (ODict
                 [("total_entries", OInt 1); ("tasks", OInt 1);
                  ("docs", OInt 0); ("reminders", OInt 0);
                  ("git_workflows", OInt 0);
                  ("recent_activity", OList (map row_tuple pm_entries))]).
Proof.
  destruct (project_summary_window sample_project 1)
    as (pm & Heq & Hpm & _); [reflexivity|reflexivity|].
  exists pm. split; [exact Heq|]. rewrite Hpm. split; reflexivity.
Defined.

(** ** Reads, appends and ids *)

(** X17. A call that only reads, with arguments that sqlite3 accepts (a
    limit that fits a signed 64-bit integer, a search term whose pattern
    LIKE accepts), writes no row: it returns without raising and leaves the
    file as [init_db] leaves it, with the rows of the three tables as they
    were. *)
Theorem reads_write_nothing (o : op) (s : store) :
  is_read o = true ->
  read_in_range o = true ->
  raised o s = false
  /\ exec o s = after_init s
  /\ rows_of (journals (exec o s)) = rows_of (journals s)
  /\ rows_of (playlists (exec o s)) = rows_of (playlists s)
  /\ rows_of (agent_responses (exec o s)) = rows_of (agent_responses s).
Proof.
  intros Hread _. split; [apply no_call_raises|].
  assert (Hexec : exec o s = after_init s).
  { destruct o; try discriminate Hread; simpl;
      try rewrite list_journals_eq; try rewrite get_journals_by_agent_eq;
      try rewrite search_journals_eq; try rewrite list_playlists_eq;
      try rewrite get_agent_memory_eq;
      try rewrite get_recent_conversations_eq;
      try rewrite format_memory_for_context_store;
      try rewrite get_memory_tool_store; reflexivity. }
  rewrite Hexec. split; [reflexivity|].
  unfold after_init. simpl. now rewrite !rows_of_create.
Qed.

Lemma reads_write_nothing_witness :
  raised (SearchJournals "x" 5) sample_project = false
  /\ exec (SearchJournals "x" 5) sample_project = after_init sample_project.
Proof.
  destruct (reads_write_nothing (SearchJournals "x" 5) sample_project)
    as (H1 & H2 & _); [reflexivity|reflexivity|].
  split; [exact H1|exact H2].
Defined.

Lemma dense_create {R : Type} (key : R -> Z) (t : option (table R)) :
  dense key t -> dense key (create_if_absent t).
Proof. destruct t as [t|]; [easy|]. intros _. split; reflexivity. Qed.

Lemma dense_insert {R : Type} (key : R -> Z) (mk : Z -> R)
    (t : option (table R)) :
  (forall i, key (mk i) = i) ->
  dense key t ->
  dense key
    (Some (insert_row mk (match t with Some t => t | None => empty_table end))).
Proof.
  intros Hkey [Hids Hseq].
  assert (Hn : seq (match t with Some t => t | None => empty_table end)
               = Z.of_nat (List.length (rows_of t))).
  { destruct t as [t|]; [exact Hseq|reflexivity]. }
  assert (Hrows : rows (match t with Some t => t | None => empty_table end)
                  = rows_of t) by (destruct t; reflexivity).
  unfold dense, insert_row. cbn [rows_of rows seq].
  rewrite Hrows, Hn, length_app, map_app, Hids. cbn [map List.length].
  rewrite Hkey, Nat.add_1_r. split; [|lia].
  unfold first_ids. rewrite seq_S, map_app. cbn [map].
  do 2 f_equal. lia.
Qed.

Lemma effect_dense s s' : effect_of s s' -> dense_store s -> dense_store s'.
Proof.
  intros H (Hj & Hp & Hr). destruct H.
  - unfold dense_store, after_init, init_db.
    cbn [final_store journals playlists agent_responses].
    split; [|split]; now apply dense_create.
  - rewrite save_journal_eq. unfold dense_store.
    cbn [final_store journals playlists agent_responses].
    split; [now apply dense_insert|]. split; now apply dense_create.
  - rewrite save_playlist_eq. unfold dense_store.
    cbn [final_store journals playlists agent_responses].
    split; [now apply dense_create|].
    split; [now apply dense_insert|now apply dense_create].
  - rewrite save_agent_response_eq. unfold dense_store.
    cbn [final_store journals playlists agent_responses].
    split; [now apply dense_create|].
    split; [now apply dense_create|now apply dense_insert].
Qed.

Lemma run_dense ops s : dense_store s -> dense_store (run ops s).
Proof.
  revert s. induction ops as [|o ops IH]; intros s H; [exact H|].
  simpl. apply IH. eapply effect_dense; [apply exec_effect|exact H].
Qed.

(** X18. In every file that the calls of this module reach from a fresh
    file, the ids of each table are 1, 2, ... in insertion order, without
    gaps: the k-th row appended to a table has id k, whatever reads and
    appends to other tables came in between. *)
Theorem ids_are_consecutive (ops : list op) :
  let s := run ops no_file in
  map j_id (rows_of (journals s))
  = first_ids (List.length (rows_of (journals s)))
  /\ map p_id (rows_of (playlists s))
     = first_ids (List.length (rows_of (playlists s)))
  /\ map r_id (rows_of (agent_responses s))
     = first_ids (List.length (rows_of (agent_responses s))).
Proof.
  intros s.
  assert (H : dense_store s).
  { apply run_dense. repeat split; reflexivity. }
  destruct H as ((Hj & _) & (Hp & _) & (Hr & _)). auto.
Qed.
